(** * ghstack's fake GitHub GraphQL endpoint ([src/ghstack/github_fake.py])

    A shallow embedding of the in-memory store ([GitHubState]), the entity
    resolvers ([Repository], [PullRequest]), the resolver root ([Root]) and
    the execution facade ([FakeGitHubGraphQLEndpoint.graphql]), followed by
    the properties the specification states about them.

    Modelling choices
    - A Python [dict] keeps insertion order and has distinct keys: it is an
      association list ([Dict]), [d[k] = v] overwrites in place or appends.
    - A Python [int] is unbounded: [Z].  [str(n)] is stdpp's [pretty].
    - Resolvers read the store, mutations change it, both may raise: readers
      are functions [GitHubState -> Result A], mutations live in the monad
      [M], whose state survives a raised exception (Python does not roll
      back what a call has already written).
    - A [TypedDict] field may be missing, [None] or a value: [Optional]. *)

From stdpp Require Import base option list strings pretty.
From Stdlib Require Import ZArith.

Local Open Scope Z_scope.

(** ** Python values *)

Definition GraphQLId := string.
Definition GitHubNumber := Z.

(** [str(n)] for a Python integer. *)
Definition str (n : Z) : string := pretty n.

(** The exceptions the module raises: a failed [d[k]] and the explicit
    [raise RuntimeError(...)]. *)
Inductive Exception :=
| KeyError (key : string)
| RuntimeError (msg : string).

Inductive Result (A : Type) :=
| Return (a : A)
| Raise (e : Exception).
Arguments Return {A} a.
Arguments Raise {A} e.

(** A key of a [TypedDict]: not there, there with value [None], or there
    with a value. *)
Inductive Optional (A : Type) :=
| Absent
| Null
| Value (a : A).
Arguments Absent {A}.
Arguments Null {A}.
Arguments Value {A} a.

(** ['k' in input and input['k'] is not None] *)
Definition present {A} (o : Optional A) : option A :=
  match o with
  | Value a => Some a
  | _ => None
  end.

(** [input.get('k')] *)
Definition dict_get_default {A} (o : Optional A) : option A :=
  match o with
  | Value a => Some a
  | _ => None
  end.

(** ** Insertion-ordered dictionaries *)

Abbreviation dict V := (list (string * V)).

Module Dict.
Section ops.
Context {V : Type}.

(** [d.get(k)] / the lookup behind [d[k]] and [k in d] *)
Fixpoint get (k : string) (d : dict V) : option V :=
  match d with
  | [] => None
  | (k', v) :: d' => if decide (k' = k) then Some v else get k d'
  end.

(** [k in d] *)
Definition contains (k : string) (d : dict V) : bool :=
  match get k d with
  | Some _ => true
  | None => false
  end.

(** [d[k] = v]: an existing key keeps its position, a new one goes last. *)
Fixpoint set (k : string) (v : V) (d : dict V) : dict V :=
  match d with
  | [] => [(k, v)]
  | (k', v') :: d' =>
      if decide (k' = k) then (k', v) :: d' else (k', v') :: set k v d'
  end.

(** [d.keys()], [d.values()] in iteration order *)
Definition keys (d : dict V) : list string := d.*1.
Definition values (d : dict V) : list V := d.*2.

(** [d[k]] *)
Definition getitem (k : string) (d : dict V) : Result V :=
  match get k d with
  | Some v => Return v
  | None => Raise (KeyError k)
  end.
End ops.
End Dict.

(** ** Entities (the dataclasses) *)

Record Repository := mkRepository {
  Repository_id : GraphQLId;
  Repository_name : string;
  Repository_nameWithOwner : string;
}.

Record PullRequest := mkPullRequest {
  PullRequest_id : GraphQLId;
  PullRequest_baseRefName : string;
  PullRequest_body : string;
  PullRequest_headRefName : string;
  PullRequest_number : GitHubNumber;
  PullRequest__repository : GraphQLId;
  PullRequest_title : string;
  PullRequest_url : string;
}.

(** [@dataclass] generates [__eq__] comparing the tuples of all fields. *)
Global Instance Repository_eq_dec : EqDecision Repository.
Proof. solve_decision. Defined.
Global Instance PullRequest_eq_dec : EqDecision PullRequest.
Proof. solve_decision. Defined.

(** [Node] is the common base class; [Root.node] returns either kind. *)
Inductive Node :=
| NodeRepository (r : Repository)
| NodePullRequest (p : PullRequest).

Definition Node_id (n : Node) : GraphQLId :=
  match n with
  | NodeRepository r => Repository_id r
  | NodePullRequest p => PullRequest_id p
  end.

(** Attribute assignment on a pull request object. *)
Definition set_title (v : string) (p : PullRequest) : PullRequest :=
  mkPullRequest (PullRequest_id p) (PullRequest_baseRefName p)
    (PullRequest_body p) (PullRequest_headRefName p) (PullRequest_number p)
    (PullRequest__repository p) v (PullRequest_url p).
Definition set_baseRefName (v : string) (p : PullRequest) : PullRequest :=
  mkPullRequest (PullRequest_id p) v
    (PullRequest_body p) (PullRequest_headRefName p) (PullRequest_number p)
    (PullRequest__repository p) (PullRequest_title p) (PullRequest_url p).
Definition set_body (v : string) (p : PullRequest) : PullRequest :=
  mkPullRequest (PullRequest_id p) (PullRequest_baseRefName p)
    v (PullRequest_headRefName p) (PullRequest_number p)
    (PullRequest__repository p) (PullRequest_title p) (PullRequest_url p).

(** ** Mutation inputs and payloads *)

Module UpdatePullRequestInput.
Record t := mk {
  baseRefName : Optional string;
  title : Optional string;
  body : Optional string;
  clientMutationId : Optional string;
  pullRequestId : GraphQLId;
}.
End UpdatePullRequestInput.

Module CreatePullRequestInput.
Record t := mk {
  baseRefName : string;
  headRefName : string;
  title : string;
  body : string;
  clientMutationId : Optional string;
  ownerId : GraphQLId;
}.
End CreatePullRequestInput.

Module UpdatePullRequestPayload.
Record t := mk {
  clientMutationId : option string;
  pullRequest : PullRequest;
}.
End UpdatePullRequestPayload.

Module CreatePullRequestPayload.
Record t := mk {
  clientMutationId : option string;
  pullRequest : PullRequest;
}.
End CreatePullRequestPayload.

(** ** The store *)

Record GitHubState := mkGitHubState {
  repositories : dict Repository;
  pull_requests : dict PullRequest;
  _next_id : Z;
  _next_pull_request_number : dict Z;
}.

(** Computations that may modify the store and may raise. *)
Definition M (A : Type) : Type := GitHubState → Result A * GitHubState.

Global Instance M_ret : MRet M := λ A a st, (Return a, st).
Global Instance M_bind : MBind M := λ A B f m st,
  match m st with
  | (Return a, st') => f a st'
  | (Raise e, st') => (Raise e, st')
  end.

Global Instance M_fmap : FMap M := λ A B f m st,
  match m st with
  | (Return a, st') => (Return (f a), st')
  | (Raise e, st') => (Raise e, st')
  end.

(** A resolver that only reads the store, run inside [M]. *)
Definition read {A} (f : GitHubState → Result A) : M A := λ st, (f st, st).
(** An assignment to a field of the store. *)
Definition modify (f : GitHubState → GitHubState) : M unit := λ st, (Return (), f st).

Module GitHubState.

Definition set__next_id (v : Z) (st : GitHubState) : GitHubState :=
  mkGitHubState (repositories st) (pull_requests st) v
    (_next_pull_request_number st).
Definition set__next_pull_request_number (v : dict Z) (st : GitHubState)
  : GitHubState :=
  mkGitHubState (repositories st) (pull_requests st) (_next_id st) v.
Definition set_pull_requests (v : dict PullRequest) (st : GitHubState)
  : GitHubState :=
  mkGitHubState (repositories st) v (_next_id st)
    (_next_pull_request_number st).

(** [[
    def next_id(self):
        r = GraphQLId(str(self._next_id))
        self._next_id += 1
        return r
    ]] *)
Definition next_id : M GraphQLId :=
  r ← read (λ st, Return (str (_next_id st)));
  modify (λ st, set__next_id (_next_id st + 1) st);;
  mret r.

(** [[
    def next_pull_request_number(self, repo_id):
        r = GitHubNumber(self._next_pull_request_number[repo_id])
        self._next_pull_request_number[repo_id] += 1
        return r
    ]] *)
Definition next_pull_request_number (repo_id : GraphQLId) : M GitHubNumber :=
  r ← read (λ st, Dict.getitem repo_id (_next_pull_request_number st));
  n ← read (λ st, Dict.getitem repo_id (_next_pull_request_number st));
  modify (λ st, set__next_pull_request_number
                 (Dict.set repo_id (n + 1) (_next_pull_request_number st)) st);;
  mret r.

(** [__init__]: one seeded repository, numbering from 500, identifiers
    from 5000. *)
Definition init : GitHubState :=
  let st := mkGitHubState [] [] 5000 [] in
  let st := mkGitHubState
              (Dict.set "1000" (mkRepository "1000" "pytorch" "pytorch/pytorch")
                 (repositories st))
              (pull_requests st) (_next_id st) (_next_pull_request_number st) in
  set__next_pull_request_number
    (Dict.set "1000" 500 (_next_pull_request_number st)) st.

End GitHubState.

(** ** Entity resolvers *)

Module PullRequest.
(** [[
    def repository(self, info):
        return info.context.repositories[self._repository]
    ]] *)
Definition repository (self : PullRequest) (st : GitHubState)
  : Result Repository :=
  Dict.getitem (PullRequest__repository self) (repositories st).
End PullRequest.

(** [list(filter(p, l))] for a predicate that may raise: the first
    exception aborts the whole comprehension. *)
Fixpoint filter_raising {A} (p : A → Result bool) (l : list A)
  : Result (list A) :=
  match l with
  | [] => Return []
  | x :: l' =>
      match p x with
      | Raise e => Raise e
      | Return b =>
          match filter_raising p l' with
          | Raise e => Raise e
          | Return r => Return (if b then x :: r else r)
          end
      end
  end.

Module Repository.

(** [self == pr.repository(info)]: the dataclass [__eq__] of the receiver
    against the repository stored under the pull request's reference. *)
Definition owns (self : Repository) (st : GitHubState) (pr : PullRequest)
  : Result bool :=
  match PullRequest.repository pr st with
  | Raise e => Raise e
  | Return r => Return (bool_decide (self = r))
  end.

(** [[
    for pr in info.context.pull_requests.values():
        if self == pr.repository(info) and pr.number == number:
            return pr
    raise RuntimeError(
        "unrecognized pull request #{} in repository {}"
        .format(number, self.nameWithOwner))
    ]] *)
Fixpoint pullRequest_loop (self : Repository) (st : GitHubState)
    (number : GitHubNumber) (prs : list PullRequest) : Result PullRequest :=
  match prs with
  | [] =>
      Raise (RuntimeError ("unrecognized pull request #" +:+ str number +:+
                           " in repository " +:+ Repository_nameWithOwner self))
  | pr :: prs' =>
      match owns self st pr with
      | Raise e => Raise e
      | Return b =>
          if b && bool_decide (PullRequest_number pr = number)
          then Return pr
          else pullRequest_loop self st number prs'
      end
  end.

Definition pullRequest (self : Repository) (number : GitHubNumber)
    (st : GitHubState) : Result PullRequest :=
  pullRequest_loop self st number (Dict.values (pull_requests st)).

(** [[
    return PullRequestConnection(
        nodes=list(filter(lambda pr: self == pr.repository(info),
                          info.context.pull_requests.values())))
    ]] *)
Definition pullRequests (self : Repository) (st : GitHubState)
  : Result (list PullRequest) :=
  filter_raising (owns self st) (Dict.values (pull_requests st)).

End Repository.

(** ** The resolver root *)

Module Root.

(** [[
    nameWithOwner = "{}/{}".format(owner, name)
    for r in info.context.repositories.values():
        if r.nameWithOwner == nameWithOwner:
            return r
    raise RuntimeError("unknown repository {}".format(nameWithOwner))
    ]] *)
Fixpoint repository_loop (nameWithOwner : string) (rs : list Repository)
  : Result Repository :=
  match rs with
  | [] => Raise (RuntimeError ("unknown repository " +:+ nameWithOwner))
  | r :: rs' =>
      if bool_decide (Repository_nameWithOwner r = nameWithOwner)
      then Return r
      else repository_loop nameWithOwner rs'
  end.

Definition repository (owner name : string) (st : GitHubState)
  : Result Repository :=
  let nameWithOwner := owner +:+ "/" +:+ name in
  repository_loop nameWithOwner (Dict.values (repositories st)).

(** [[
    if id in info.context.repositories:
        return info.context.repositories[id]
    elif id in info.context.pull_requests:
        return info.context.pull_requests[id]
    else:
        raise RuntimeError("unknown id {}".format(id))
    ]] *)
Definition node (id : GraphQLId) (st : GitHubState) : Result Node :=
  if Dict.contains id (repositories st) then
    match Dict.getitem id (repositories st) with
    | Return r => Return (NodeRepository r)
    | Raise e => Raise e
    end
  else if Dict.contains id (pull_requests st) then
    match Dict.getitem id (pull_requests st) with
    | Return p => Return (NodePullRequest p)
    | Raise e => Raise e
    end
  else Raise (RuntimeError ("unknown id " +:+ id)).

(** [pr.attr = v] on the object held by the store under [key]: the store
    sees the assignment, since [pr] is that very object. *)
Definition assign (key : GraphQLId) (f : PullRequest → PullRequest) : M unit :=
  modify (λ st,
    match Dict.get key (pull_requests st) with
    | Some pr =>
        GitHubState.set_pull_requests
          (Dict.set key (f pr) (pull_requests st)) st
    | None => st
    end).

(** [if 'k' in input and input['k'] is not None: pr.k = input['k']] *)
Definition assign_if_present (key : GraphQLId) (o : Optional string)
    (f : string → PullRequest → PullRequest) : M unit :=
  match present o with
  | Some v => assign key (f v)
  | None => mret ()
  end.

(** [[
    pr = info.context.pull_requests[input['pullRequestId']]
    if 'title' in input and input['title'] is not None:
        pr.title = input['title']
    if 'baseRefName' in input and input['baseRefName'] is not None:
        pr.baseRefName = input['baseRefName']
    if 'body' in input and input['body'] is not None:
        pr.body = input['body']
    return UpdatePullRequestPayload(
            clientMutationId=input.get('clientMutationId'),
            pullRequest=pr)
    ]] *)
Definition updatePullRequest (input : UpdatePullRequestInput.t)
  : M UpdatePullRequestPayload.t :=
  let key := UpdatePullRequestInput.pullRequestId input in
  _ ← read (λ st, Dict.getitem key (pull_requests st));
  assign_if_present key (UpdatePullRequestInput.title input) set_title;;
  assign_if_present key (UpdatePullRequestInput.baseRefName input)
    set_baseRefName;;
  assign_if_present key (UpdatePullRequestInput.body input) set_body;;
  pr ← read (λ st, Dict.getitem key (pull_requests st));
  mret (UpdatePullRequestPayload.mk
          (dict_get_default (UpdatePullRequestInput.clientMutationId input))
          pr).

(** [[
    id = info.context.next_id()
    repo = info.context.repositories[input['ownerId']]
    number = info.context.next_pull_request_number(input['ownerId'])
    pr = PullRequest(
        id=id,
        _repository=input['ownerId'],
        number=number,
        url="https://github.com/{}/pull/{}".format(repo.nameWithOwner, number),
        baseRefName=input['baseRefName'],
        headRefName=input['headRefName'],
        title=input['title'],
        body=input['body'],
    )
    info.context.pull_requests[id] = pr
    return CreatePullRequestPayload(
            clientMutationId=input.get('clientMutationId'),
            pullRequest=pr)
    ]] *)
Definition createPullRequest (input : CreatePullRequestInput.t)
  : M CreatePullRequestPayload.t :=
  let ownerId := CreatePullRequestInput.ownerId input in
  id ← GitHubState.next_id;
  repo ← read (λ st, Dict.getitem ownerId (repositories st));
  number ← GitHubState.next_pull_request_number ownerId;
  let pr := {|
    PullRequest_id := id;
    PullRequest__repository := ownerId;
    PullRequest_number := number;
    PullRequest_url :=
      "https://github.com/" +:+ Repository_nameWithOwner repo +:+
      "/pull/" +:+ str number;
    PullRequest_baseRefName := CreatePullRequestInput.baseRefName input;
    PullRequest_headRefName := CreatePullRequestInput.headRefName input;
    PullRequest_title := CreatePullRequestInput.title input;
    PullRequest_body := CreatePullRequestInput.body input;
  |} in
  modify (λ st, GitHubState.set_pull_requests
                 (Dict.set id pr (pull_requests st)) st);;
  mret (CreatePullRequestPayload.mk
          (dict_get_default (CreatePullRequestInput.clientMutationId input))
          pr).

End Root.

(** ** The execution facade *)

(** The newline character of Python's ["\n"]. *)
Definition nl : string := String (Ascii.ascii_of_nat 10) EmptyString.

(** [sep.join(l)] *)
Fixpoint join (sep : string) (l : list string) : string :=
  match l with
  | [] => EmptyString
  | [x] => x
  | x :: l' => x +:+ sep +:+ join sep l'
  end.

Module FakeGitHubGraphQLEndpoint.
Section facade.

(** What the facade needs from graphql-core, an external library: the JSON
    tree type, the error type with its [str], and [graphql_sync] itself,
    which runs the resolvers against the store (and so may modify it) and
    hands back an [ExecutionResult] with [data] and [errors]. *)
Context {Data GraphQLError Variables : Type}.
Variable error_str : GraphQLError → string.

Record ExecutionResult := mkExecutionResult {
  data : option Data;
  errors : option (list GraphQLError);
}.

Variable graphql_sync :
  string → Variables → GitHubState → ExecutionResult * GitHubState.

(** [if r.errors:] is taken for a non-empty list; [None] and [[]] are falsy. *)
Definition truthy (es : option (list GraphQLError)) : bool :=
  match es with
  | Some (_ :: _) => true
  | _ => false
  end.

Definition errors_list (es : option (list GraphQLError)) : list GraphQLError :=
  default [] es.

(** [[
    r = graphql.graphql_sync(schema=GITHUB_SCHEMA, source=query,
            root_value=self.context.root, context_value=self.context,
            variable_values=kwargs)
    if r.errors:
        raise RuntimeError("GraphQL query failed with errors:\n\n{}"
                           .format("\n".join(str(e) for e in r.errors)))
    return {'data': r.data}
    ]] *)
Definition graphql (query : string) (kwargs : Variables)
  : M (dict (option Data)) :=
  λ st,
    let (r, st') := graphql_sync query kwargs st in
    if truthy (errors r) then
      (Raise (RuntimeError
                ("GraphQL query failed with errors:" +:+ nl +:+ nl +:+
                 join nl (error_str <$> errors_list (errors r)))), st')
    else (Return [("data", data r)], st').

End facade.
End FakeGitHubGraphQLEndpoint.

(** ** Runs of the resolvers

    Whatever query or mutation document the engine executes, what reaches
    the store is a sequence of resolver calls.  [Op] names one call with its
    arguments (and its receiver, for the entity resolvers), [exec] runs it,
    [run] runs a sequence from a given store and collects the outcomes. *)

Inductive Op :=
| Op_repository (owner name : string)
| Op_node (id : GraphQLId)
| Op_Repository_pullRequest (self : Repository) (number : GitHubNumber)
| Op_Repository_pullRequests (self : Repository)
| Op_PullRequest_repository (self : PullRequest)
| Op_updatePullRequest (input : UpdatePullRequestInput.t)
| Op_createPullRequest (input : CreatePullRequestInput.t).

Inductive Outcome :=
| Out_Repository (r : Repository)
| Out_Node (n : Node)
| Out_PullRequest (p : PullRequest)
| Out_PullRequests (l : list PullRequest)
| Out_Updated (p : UpdatePullRequestPayload.t)
| Out_Created (p : CreatePullRequestPayload.t).

Definition exec (op : Op) : M Outcome :=
  match op with
  | Op_repository owner name => Out_Repository <$> read (Root.repository owner name)
  | Op_node id => Out_Node <$> read (Root.node id)
  | Op_Repository_pullRequest self number =>
      Out_PullRequest <$> read (Repository.pullRequest self number)
  | Op_Repository_pullRequests self =>
      Out_PullRequests <$> read (Repository.pullRequests self)
  | Op_PullRequest_repository self =>
      Out_Repository <$> read (PullRequest.repository self)
  | Op_updatePullRequest input => Out_Updated <$> Root.updatePullRequest input
  | Op_createPullRequest input => Out_Created <$> Root.createPullRequest input
  end.

Fixpoint run (ops : list Op) (st : GitHubState)
  : list (Result Outcome) * GitHubState :=
  match ops with
  | [] => ([], st)
  | op :: ops' =>
      let (r, st') := exec op st in
      let (rs, st'') := run ops' st' in
      (r :: rs, st'')
  end.

(** The stores the endpoint can be in: what a sequence of resolver calls
    leaves of the seeded store. *)
Definition reachable (st : GitHubState) : Prop :=
  ∃ ops, (run ops GitHubState.init).2 = st.

(** * Vocabulary of the properties *)

(** The value an optional input field leaves in an attribute. *)
Definition applied {A} (o : Optional A) (old : A) : A :=
  match o with
  | Value v => v
  | _ => old
  end.

(** The pull request an update input makes of [pr]. *)
Definition updated (input : UpdatePullRequestInput.t) (pr : PullRequest)
  : PullRequest :=
  {| PullRequest_id := PullRequest_id pr;
     PullRequest_baseRefName :=
       applied (UpdatePullRequestInput.baseRefName input) (PullRequest_baseRefName pr);
     PullRequest_body :=
       applied (UpdatePullRequestInput.body input) (PullRequest_body pr);
     PullRequest_headRefName := PullRequest_headRefName pr;
     PullRequest_number := PullRequest_number pr;
     PullRequest__repository := PullRequest__repository pr;
     PullRequest_title :=
       applied (UpdatePullRequestInput.title input) (PullRequest_title pr);
     PullRequest_url := PullRequest_url pr |}.

(** The pull request a creation input becomes, given the identifier and
    number allocated for it and the repository it goes to. *)
Definition created (input : CreatePullRequestInput.t) (id : GraphQLId)
    (repo : Repository) (number : GitHubNumber) : PullRequest :=
  {| PullRequest_id := id;
     PullRequest_baseRefName := CreatePullRequestInput.baseRefName input;
     PullRequest_body := CreatePullRequestInput.body input;
     PullRequest_headRefName := CreatePullRequestInput.headRefName input;
     PullRequest_number := number;
     PullRequest__repository := CreatePullRequestInput.ownerId input;
     PullRequest_title := CreatePullRequestInput.title input;
     PullRequest_url :=
       "https://github.com/" +:+ Repository_nameWithOwner repo +:+
       "/pull/" +:+ str number |}.

(** ** Well-formed stores

    The data-model invariants: every entity sits under its own identifier,
    repositories and pull requests share one identifier namespace, every
    owning-repository reference resolves, and the identifier counter is
    past every identifier in use. *)

Record store_wf (st : GitHubState) : Prop := mk_store_wf {
  wf_repositories_keys :
    ∀ k r, (k, r) ∈ repositories st → Repository_id r = k;
  wf_pull_requests_keys :
    ∀ k p, (k, p) ∈ pull_requests st → PullRequest_id p = k;
  wf_repositories_nodup : NoDup (Dict.keys (repositories st));
  wf_pull_requests_nodup : NoDup (Dict.keys (pull_requests st));
  wf_disjoint :
    ∀ k, k ∈ Dict.keys (repositories st) → k ∉ Dict.keys (pull_requests st);
  wf_resolves :
    ∀ k p, (k, p) ∈ pull_requests st →
           is_Some (Dict.get (PullRequest__repository p) (repositories st));
  wf_fresh :
    ∀ k n, k ∈ Dict.keys (repositories st) ++ Dict.keys (pull_requests st) →
           _next_id st ≤ n → k ≠ str n;
}.

(** The pull requests handed back by the successful [createPullRequest]
    calls of a run, in call order. *)
Definition created_pull_requests (rs : list (Result Outcome)) : list PullRequest :=
  omap (λ r, match r with
             | Return (Out_Created p) => Some (CreatePullRequestPayload.pullRequest p)
             | _ => None
             end) rs.

(** The numbers of those that went to repository [owner]. *)
Definition created_numbers (owner : GraphQLId) (rs : list (Result Outcome))
  : list GitHubNumber :=
  PullRequest_number <$>
    filter (λ p, PullRequest__repository p = owner) (created_pull_requests rs).

(** The identifiers of the entities a store holds, repositories first. *)
Definition live_ids (st : GitHubState) : list GraphQLId :=
  (Repository_id <$> Dict.values (repositories st)) ++
  (PullRequest_id <$> Dict.values (pull_requests st)).

(** A repository of the store: the receiver of an entity resolver is the
    value the store holds under the receiver's identifier. *)
Definition live (self : Repository) (st : GitHubState) : Prop :=
  Dict.get (Repository_id self) (repositories st) = Some self.

(** Repositories are stored under their own identifiers. *)
Definition repositories_by_id (st : GitHubState) : Prop :=
  ∀ k r, (k, r) ∈ repositories st → Repository_id r = k.

(** Every pull request's owning-repository reference resolves. *)
Definition references_resolve (st : GitHubState) : Prop :=
  ∀ pr, pr ∈ Dict.values (pull_requests st) →
        is_Some (Dict.get (PullRequest__repository pr) (repositories st)).

(** The seeded repository. *)
Definition pytorch : Repository := mkRepository "1000" "pytorch" "pytorch/pytorch".

(** ** Sample data: the scenario of the specification's section 8 *)

Definition sample_create : CreatePullRequestInput.t :=
  CreatePullRequestInput.mk "main" "feature" "T" "B" Absent "1000".

Definition sample_orphan : CreatePullRequestInput.t :=
  CreatePullRequestInput.mk "main" "feature" "T" "B" Absent "77".

(** The store after the first creation. *)
Definition store1 : GitHubState :=
  (Root.createPullRequest sample_create GitHubState.init).2.

(** The pull request that creation makes. *)
Definition pr5000 : PullRequest :=
  mkPullRequest "5000" "main" "B" "feature" 500 "1000" "T"
    "https://github.com/pytorch/pytorch/pull/500".

Definition sample_update : UpdatePullRequestInput.t :=
  UpdatePullRequestInput.mk Absent (Value "T2") Null Absent "5000".


(** A store with a pull request whose owning repository is not there. *)
Definition store_dangling : GitHubState :=
  mkGitHubState [("1000", pytorch)]
    [("5000", pr5000);
     ("5001", mkPullRequest "5001" "main" "B" "feature" 7 "2000" "T" "u")]
    5002 [("1000", 501)].

(** A stand-in engine for the facade: JSON trees and errors are strings,
    there are no variables, and every query yields the given result without
    touching the store. *)
Definition sample_engine
    (r : @FakeGitHubGraphQLEndpoint.ExecutionResult string string)
  : string → unit → GitHubState
    → @FakeGitHubGraphQLEndpoint.ExecutionResult string string * GitHubState :=
  λ _ _ st, (r, st).

(** ** Vocabulary of the further properties *)

(** Two update inputs for one pull request, applied one after the other,
    as a single input: the later one's value where it gives one, the
    earlier one's otherwise. *)
Definition later {A} (o1 o2 : Optional A) : Optional A :=
  match o2 with
  | Value v => Value v
  | _ => o1
  end.

Definition merge_inputs (i1 i2 : UpdatePullRequestInput.t)
  : UpdatePullRequestInput.t :=
  UpdatePullRequestInput.mk
    (later (UpdatePullRequestInput.baseRefName i1) (UpdatePullRequestInput.baseRefName i2))
    (later (UpdatePullRequestInput.title i1) (UpdatePullRequestInput.title i2))
    (later (UpdatePullRequestInput.body i1) (UpdatePullRequestInput.body i2))
    (UpdatePullRequestInput.clientMutationId i2)
    (UpdatePullRequestInput.pullRequestId i2).

(** Numbering invariant: the number of every pull request is below the
    counter of the repository it refers to. *)
Definition numbers_below (st : GitHubState) : Prop :=
  ∀ k p, (k, p) ∈ pull_requests st →
    ∃ n, Dict.get (PullRequest__repository p) (_next_pull_request_number st) = Some n
         ∧ PullRequest_number p < n.

(** Within one repository no two pull requests share a number. *)
Definition numbers_unique (st : GitHubState) : Prop :=
  ∀ k1 p1 k2 p2,
    (k1, p1) ∈ pull_requests st → (k2, p2) ∈ pull_requests st →
    PullRequest__repository p1 = PullRequest__repository p2 →
    PullRequest_number p1 = PullRequest_number p2 →
    k1 = k2.

(** Two pull-request values that are the same pull request: they agree on
    everything but [title], [baseRefName] and [body]. *)
Definition same_identity (p p' : PullRequest) : Prop :=
  PullRequest_id p' = PullRequest_id p
  ∧ PullRequest_number p' = PullRequest_number p
  ∧ PullRequest_url p' = PullRequest_url p
  ∧ PullRequest_headRefName p' = PullRequest_headRefName p
  ∧ PullRequest__repository p' = PullRequest__repository p.

(** * Log forensics ([src/ghstack/forensics.py])

    [strip_sccache] searches and slices its argument by position, so here a
    Python [str] is the list of its characters.  [rfind] and the slice
    follow CPython: indices are adjusted first (a negative one counts from
    the end, one past the end is clipped), [rfind] returns the highest
    index in range at which the substring starts and [-1] if there is
    none. *)

Definition py_len {A} (s : list A) : Z := Z.of_nat (length s).

(** Adjustment of a slice's start and end against the length. *)
Definition adjust_start (len start : Z) : Z :=
  if start <? 0 then Z.max 0 (start + len) else start.

Definition adjust_end (len end_ : Z) : Z :=
  if end_ >? len then len
  else if end_ <? 0 then Z.max 0 (end_ + len)
  else end_.

(** [s[:stop]] *)
Definition slice_to {A} (s : list A) (stop : Z) : list A :=
  take (Z.to_nat (adjust_end (py_len s) stop)) s.

(** The candidates [lo + n - 1], ..., [lo], highest first. *)
Fixpoint rfind_down {A} `{EqDecision A} (s sub : list A) (lo n : nat)
  : option nat :=
  match n with
  | O => None
  | S n' =>
      if decide (take (length sub) (drop (lo + n') s) = sub)
      then Some (lo + n')%nat
      else rfind_down s sub lo n'
  end.

(** [s.rfind(sub, start, end)] *)
Definition rfind {A} `{EqDecision A} (s sub : list A) (start end_ : Z) : Z :=
  let a := adjust_start (py_len s) start in
  let b := adjust_end (py_len s) end_ in
  if b - a <? py_len sub then -1
  else
    match rfind_down s sub (Z.to_nat a) (Z.to_nat (b - py_len sub - a + 1)) with
    | Some i => Z.of_nat i
    | None => -1
    end.

(** The characters of a string literal. *)
Definition chars (s : string) : list Ascii.ascii :=
  Stdlib.Strings.String.list_ascii_of_string s.

Module forensics.

Definition SCCACHE_MARKER : list Ascii.ascii :=
  chars "=================== sccache compilation log ===================".

Definition newline : Ascii.ascii := Ascii.ascii_of_nat 10.

(** [[
    marker_pos = log_content.rfind(SCCACHE_MARKER)
    newline_before_marker_pos = log_content.rfind("\n", 0, marker_pos)
    return log_content[:newline_before_marker_pos]
    ]]
    [rfind] with one argument searches the whole string. *)
Definition strip_sccache (log_content : list Ascii.ascii) : list Ascii.ascii :=
  let marker_pos := rfind log_content SCCACHE_MARKER 0 (py_len log_content) in
  let newline_before_marker_pos := rfind log_content [newline] 0 marker_pos in
  slice_to log_content newline_before_marker_pos.

End forensics.

(** [sub] starts at index [i] of [s]. *)
Definition occurs_at {A} (sub s : list A) (i : nat) : Prop :=
  take (length sub) (drop i s) = sub.

(** Sample logs. *)
Definition log_with_marker : list Ascii.ascii :=
  chars "ok" ++ [forensics.newline] ++
  chars "cc " ++ forensics.SCCACHE_MARKER ++
  [forensics.newline] ++ chars "hits 3".

Definition log_marker_first_line : list Ascii.ascii :=
  chars "cc " ++ forensics.SCCACHE_MARKER ++
  [forensics.newline] ++ chars "hits 3".

Definition log_without_marker : list Ascii.ascii :=
  chars "ok" ++ [forensics.newline] ++
  chars "done" ++ chars ".".

(** * Properties *)

(** ** Dictionaries *)

Module DictFacts.
Section facts.
Context {V : Type}.
Implicit Types (d : dict V) (k : string) (v : V).

Lemma get_set_eq d k v : Dict.get k (Dict.set k v d) = Some v.
Proof.
  induction d as [|[k' v'] d IH]; simpl.
  - by rewrite decide_True.
  - destruct (decide (k' = k)) as [->|Hne]; simpl.
    + by rewrite decide_True.
    + by rewrite decide_False.
Qed.

Lemma get_set_ne d k k' v : k ≠ k' → Dict.get k' (Dict.set k v d) = Dict.get k' d.
Proof.
  intros Hne. induction d as [|[k0 v0] d IH]; simpl.
  - by rewrite decide_False.
  - destruct (decide (k0 = k)) as [->|Hne0]; simpl.
    + by rewrite !decide_False.
    + destruct (decide (k0 = k')); done.
Qed.

Lemma get_None_keys d k : Dict.get k d = None ↔ k ∉ Dict.keys d.
Proof.
  unfold Dict.keys. induction d as [|[k' v'] d IH]; simpl.
  - split; [intros _; apply not_elem_of_nil | done].
  - rewrite not_elem_of_cons. destruct (decide (k' = k)) as [->|Hne].
    + split; [done | by intros [? _]].
    + rewrite IH. split; [by intros ?; split|by intros [_ ?]].
Qed.

Lemma get_Some_elem d k v : Dict.get k d = Some v → (k, v) ∈ d.
Proof.
  induction d as [|[k' v'] d IH]; simpl; [done|].
  destruct (decide (k' = k)) as [->|Hne].
  - intros [= ->]. apply list_elem_of_here.
  - intros H. apply list_elem_of_further. auto.
Qed.

Lemma elem_keys d k v : (k, v) ∈ d → k ∈ Dict.keys d.
Proof. intros H. unfold Dict.keys. apply list_elem_of_fmap. by exists (k, v). Qed.

Lemma values_elem d v : v ∈ Dict.values d → ∃ k, (k, v) ∈ d.
Proof.
  unfold Dict.values. intros ([k v'] & -> & H)%list_elem_of_fmap. by exists k.
Qed.

(** Writing a key that is not there appends the binding. *)
Lemma set_fresh d k v : Dict.get k d = None → Dict.set k v d = d ++ [(k, v)].
Proof.
  induction d as [|[k' v'] d IH]; simpl; [done|].
  destruct (decide (k' = k)); [done|]. intros H. by rewrite IH.
Qed.

(** Writing a key that is there keeps every key where it is. *)
Lemma keys_set_present d k v :
  is_Some (Dict.get k d) → Dict.keys (Dict.set k v d) = Dict.keys d.
Proof.
  unfold Dict.keys. induction d as [|[k' v'] d IH]; simpl.
  - by intros [? ?].
  - destruct (decide (k' = k)); simpl; [done|]. intros H. f_equal. by apply IH.
Qed.

Lemma set_same d k v : Dict.get k d = Some v → Dict.set k v d = d.
Proof.
  induction d as [|[k' v'] d IH]; simpl; [done|].
  destruct (decide (k' = k)).
  - by intros [= ->].
  - intros H. by rewrite IH.
Qed.

Lemma set_set d k v1 v2 : Dict.set k v2 (Dict.set k v1 d) = Dict.set k v2 d.
Proof.
  induction d as [|[k' v'] d IH]; simpl.
  - by rewrite decide_True.
  - destruct (decide (k' = k)) as [->|Hne]; simpl.
    + by rewrite decide_True.
    + rewrite decide_False; [|done]. by rewrite IH.
Qed.

(** What a dictionary holds after an assignment. *)
Lemma elem_set d k v k' v' :
  (k', v') ∈ Dict.set k v d → (k', v') ∈ d ∨ (k' = k ∧ v' = v).
Proof.
  induction d as [|[k0 v0] d IH]; simpl.
  - intros [[= -> ->]|H]%elem_of_cons; [by right|]. by apply elem_of_nil in H.
  - destruct (decide (k0 = k)) as [->|Hne].
    + intros [[= -> ->]|H]%elem_of_cons; [by right|].
      left. by apply list_elem_of_further.
    + intros [[= -> ->]|H]%elem_of_cons; [left; apply list_elem_of_here|].
      destruct (IH H) as [?|?]; [left|by right]. by apply list_elem_of_further.
Qed.

Lemma keys_set d k v k' :
  k' ∈ Dict.keys (Dict.set k v d) ↔ k' = k ∨ k' ∈ Dict.keys d.
Proof.
  destruct (Dict.get k d) as [v0|] eqn:E.
  - rewrite keys_set_present by eauto. split; [auto|].
    intros [->|?]; [|done]. eapply elem_keys, get_Some_elem, E.
  - rewrite set_fresh by done. unfold Dict.keys. rewrite fmap_app. simpl.
    rewrite elem_of_app, list_elem_of_singleton. tauto.
Qed.

Lemma NoDup_keys_set d k v : NoDup (Dict.keys d) → NoDup (Dict.keys (Dict.set k v d)).
Proof.
  intros Hnd. destruct (Dict.get k d) as [v0|] eqn:E.
  - by rewrite keys_set_present by eauto.
  - rewrite set_fresh by done. unfold Dict.keys. rewrite fmap_app. simpl.
    apply NoDup_app. split_and!; [done| |apply NoDup_singleton].
    intros x Hx ->%list_elem_of_singleton. by apply get_None_keys in E.
Qed.

End facts.
End DictFacts.

(** ** The two mutations in closed form *)

Lemma set_pull_requests_id st :
  GitHubState.set_pull_requests (pull_requests st) st = st.
Proof. by destruct st. Qed.

Lemma assign_if_present_eq key o f pr st :
  Dict.get key (pull_requests st) = Some pr →
  Root.assign_if_present key o f st =
    (Return (),
     GitHubState.set_pull_requests
       (Dict.set key (match o with Value v => f v pr | _ => pr end)
          (pull_requests st)) st).
Proof.
  intros E. unfold Root.assign_if_present, Root.assign, modify.
  destruct o; simpl; rewrite ?E; try done;
    by rewrite (DictFacts.set_same _ _ _ E), set_pull_requests_id.
Qed.

Lemma updatePullRequest_eq input st :
  Root.updatePullRequest input st =
  let key := UpdatePullRequestInput.pullRequestId input in
  match Dict.get key (pull_requests st) with
  | None => (Raise (KeyError key), st)
  | Some pr =>
      (Return (UpdatePullRequestPayload.mk
                 (dict_get_default (UpdatePullRequestInput.clientMutationId input))
                 (updated input pr)),
       GitHubState.set_pull_requests
         (Dict.set key (updated input pr) (pull_requests st)) st)
  end.
Proof.
  destruct input as [b t bo c key]. simpl.
  unfold Root.updatePullRequest, mbind, M_bind, read, Dict.getitem. simpl.
  destruct (Dict.get key (pull_requests st)) as [pr|] eqn:E; [|done].
  rewrite (assign_if_present_eq _ _ _ pr) by done.
  erewrite assign_if_present_eq by (simpl; apply DictFacts.get_set_eq).
  erewrite assign_if_present_eq by (simpl; apply DictFacts.get_set_eq).
  simpl. rewrite !DictFacts.get_set_eq, !DictFacts.set_set.
  destruct pr; by destruct t, b, bo.
Qed.

Lemma next_id_eq st :
  GitHubState.next_id st =
  (Return (str (_next_id st)), GitHubState.set__next_id (_next_id st + 1) st).
Proof. done. Qed.

Lemma next_pull_request_number_eq repo_id st :
  GitHubState.next_pull_request_number repo_id st =
  match Dict.get repo_id (_next_pull_request_number st) with
  | None => (Raise (KeyError repo_id), st)
  | Some n =>
      (Return n,
       GitHubState.set__next_pull_request_number
         (Dict.set repo_id (n + 1) (_next_pull_request_number st)) st)
  end.
Proof.
  unfold GitHubState.next_pull_request_number, mbind, M_bind, read, Dict.getitem.
  simpl. by destruct (Dict.get repo_id (_next_pull_request_number st)).
Qed.

Lemma createPullRequest_eq input st :
  Root.createPullRequest input st =
  let ownerId := CreatePullRequestInput.ownerId input in
  let id := str (_next_id st) in
  match Dict.get ownerId (repositories st),
        Dict.get ownerId (_next_pull_request_number st) with
  | Some repo, Some n =>
      (Return (CreatePullRequestPayload.mk
                 (dict_get_default (CreatePullRequestInput.clientMutationId input))
                 (created input id repo n)),
       {| repositories := repositories st;
          pull_requests := Dict.set id (created input id repo n) (pull_requests st);
          _next_id := _next_id st + 1;
          _next_pull_request_number :=
            Dict.set ownerId (n + 1) (_next_pull_request_number st) |})
  | _, _ => (Raise (KeyError ownerId), GitHubState.set__next_id (_next_id st + 1) st)
  end.
Proof.
  unfold Root.createPullRequest. unfold mbind at 1, M_bind at 1.
  rewrite next_id_eq. unfold mbind at 1, M_bind at 1, read, Dict.getitem. simpl.
  destruct (Dict.get _ (repositories st)) as [repo|] eqn:Er; [|done].
  unfold mbind at 1, M_bind at 1. rewrite next_pull_request_number_eq. simpl.
  by destruct (Dict.get _ (_next_pull_request_number st)) as [n|] eqn:En.
Qed.

Lemma str_inj n m : str n = str m → n = m.
Proof. unfold str. apply (inj pretty). Qed.

Lemma init_wf : store_wf GitHubState.init.
Proof.
  split; simpl.
  - by intros k r [[= -> ->]|H%elem_of_nil]%elem_of_cons.
  - by intros k p H%elem_of_nil.
  - apply NoDup_singleton.
  - apply NoDup_nil_2.
  - intros k _. apply not_elem_of_nil.
  - by intros k p H%elem_of_nil.
  - intros k n ->%list_elem_of_singleton Hn E. change "1000" with (str 1000) in E. apply str_inj in E. lia.
Qed.

Lemma createPullRequest_wf input st :
  store_wf st → store_wf (Root.createPullRequest input st).2.
Proof.
  intros [Hrk Hpk Hrn Hpn Hdj Hres Hfr]. rewrite createPullRequest_eq. simpl.
  assert (Hnew : str (_next_id st) ∉ Dict.keys (repositories st) ++ Dict.keys (pull_requests st)).
  { intros Hin. by apply (Hfr _ (_next_id st) Hin). }
  rewrite not_elem_of_app in Hnew. destruct Hnew as [Hnr Hnp].
  destruct (Dict.get _ (repositories st)) as [repo|] eqn:Er;
    [destruct (Dict.get _ (_next_pull_request_number st)) as [n|] eqn:En|];
    simpl.
  2,3: split; simpl; try done; intros k m Hin Hm; apply Hfr; [done|lia].
  split; simpl.
  - done.
  - intros k p [Hin|[-> ->]]%DictFacts.elem_set; [by apply Hpk|done].
  - done.
  - by apply DictFacts.NoDup_keys_set.
  - intros k Hk [->|Hin]%DictFacts.keys_set; [done|]. by apply (Hdj k).
  - intros k p [Hin|[-> ->]]%DictFacts.elem_set; [by apply (Hres k)|].
    simpl. by rewrite Er.
  - intros k m Hin Hm. rewrite elem_of_app, DictFacts.keys_set in Hin.
    destruct Hin as [Hin|[->|Hin]].
    + apply Hfr; [|lia]. rewrite elem_of_app. by left.
    + intros E%str_inj. lia.
    + apply Hfr; [|lia]. rewrite elem_of_app. by right.
Qed.

Lemma updatePullRequest_wf input st :
  store_wf st → store_wf (Root.updatePullRequest input st).2.
Proof.
  intros [Hrk Hpk Hrn Hpn Hdj Hres Hfr]. rewrite updatePullRequest_eq. simpl.
  destruct (Dict.get _ (pull_requests st)) as [pr|] eqn:E; simpl; [|done].
  pose proof (DictFacts.get_Some_elem _ _ _ E) as Hin.
  assert (Hkeys : Dict.keys (Dict.set (UpdatePullRequestInput.pullRequestId input)
                               (updated input pr) (pull_requests st))
                  = Dict.keys (pull_requests st)).
  { apply DictFacts.keys_set_present. eauto. }
  split; simpl; rewrite ?Hkeys; try done.
  - intros k p [H|[-> ->]]%DictFacts.elem_set; [by apply Hpk|].
    simpl. by apply Hpk.
  - intros k p [H|[-> ->]]%DictFacts.elem_set; [by apply (Hres k)|].
    simpl. by apply (Hres _ _ Hin).
Qed.

(** The resolvers that only read leave the store as it is. *)
Lemma fmap_read_state {A B} (g : A → B) (f : GitHubState → Result A) st :
  ((g <$> read f) st).2 = st.
Proof. unfold fmap, M_fmap, read. by destruct (f st). Qed.

Lemma fmap_state {A B} (g : A → B) (m : M A) st : ((g <$> m) st).2 = (m st).2.
Proof. unfold fmap, M_fmap. by destruct (m st) as [[?|?] ?]. Qed.

Lemma exec_wf op st : store_wf st → store_wf (exec op st).2.
Proof.
  intros Hwf. destruct op; unfold exec; rewrite ?fmap_read_state; try done.
  - rewrite fmap_state. by apply updatePullRequest_wf.
  - rewrite fmap_state. by apply createPullRequest_wf.
Qed.

Lemma run_cons op ops st :
  run (op :: ops) st =
  ((exec op st).1 :: (run ops (exec op st).2).1, (run ops (exec op st).2).2).
Proof.
  cbn [run]. destruct (exec op st) as [r st']. cbn [fst snd].
  by destruct (run ops st').
Qed.

Lemma run_wf ops st : store_wf st → store_wf (run ops st).2.
Proof.
  revert st. induction ops as [|op ops IH]; intros st Hwf; [done|].
  rewrite run_cons. simpl. by apply IH, exec_wf.
Qed.

Lemma reachable_wf st : reachable st → store_wf st.
Proof. intros [ops <-]. apply run_wf, init_wf. Qed.

(** ** One resolver call, case by case *)

Lemma created_pull_requests_cons r rs :
  created_pull_requests (r :: rs) =
  created_pull_requests [r] ++ created_pull_requests rs.
Proof. unfold created_pull_requests. simpl. by destruct r as [[]|]. Qed.

(** What a call does to the store and whether it hands back a created pull
    request: nothing at all (a read, or an update of an unknown pull
    request), an in-place update, a failed creation that only moves the
    identifier counter, or a creation. *)
Lemma exec_cases op st :
  (created_pull_requests [(exec op st).1] = [] ∧
   ((exec op st).2 = st
    ∨ (∃ input pr,
         Dict.get (UpdatePullRequestInput.pullRequestId input) (pull_requests st)
           = Some pr
         ∧ (exec op st).2 =
             GitHubState.set_pull_requests
               (Dict.set (UpdatePullRequestInput.pullRequestId input)
                  (updated input pr) (pull_requests st)) st)
    ∨ (exec op st).2 = GitHubState.set__next_id (_next_id st + 1) st))
  ∨ (∃ input repo n,
       Dict.get (CreatePullRequestInput.ownerId input) (repositories st) = Some repo
       ∧ Dict.get (CreatePullRequestInput.ownerId input)
           (_next_pull_request_number st) = Some n
       ∧ created_pull_requests [(exec op st).1]
           = [created input (str (_next_id st)) repo n]
       ∧ (exec op st).2 =
           {| repositories := repositories st;
              pull_requests :=
                Dict.set (str (_next_id st))
                  (created input (str (_next_id st)) repo n) (pull_requests st);
              _next_id := _next_id st + 1;
              _next_pull_request_number :=
                Dict.set (CreatePullRequestInput.ownerId input) (n + 1)
                  (_next_pull_request_number st) |}).
Proof.
  destruct op as [owner name|id|self number|self|self|input|input]; unfold exec.
  1-5: left; split; [|left; apply fmap_read_state];
       unfold fmap, M_fmap, read; by case_match.
  - left. unfold fmap, M_fmap. rewrite updatePullRequest_eq. simpl.
    destruct (Dict.get _ (pull_requests st)) as [pr|] eqn:E; simpl.
    + split; [done|]. right; left. by exists input, pr.
    + split; [done|]. by left.
  - unfold fmap, M_fmap. rewrite createPullRequest_eq. simpl.
    destruct (Dict.get _ (repositories st)) as [repo|] eqn:Er;
      [destruct (Dict.get _ (_next_pull_request_number st)) as [n|] eqn:En|];
      simpl.
    + right. by exists input, repo, n.
    + left. split; [done|]. by right; right.
    + left. split; [done|]. by right; right.
Qed.

(** A property every call preserves holds all along a run. *)
Lemma run_invariant (P : GitHubState → Prop) :
  (∀ op st, P st → P (exec op st).2) →
  ∀ ops st, P st → P (run ops st).2.
Proof.
  intros Hstep ops. induction ops as [|op ops IH]; intros st HP; [done|].
  rewrite run_cons. simpl. by apply IH, Hstep.
Qed.

Lemma exec_repositories op st : repositories (exec op st).2 = repositories st.
Proof.
  destruct (exec_cases op st) as [[_ [->|[(input & pr & _ & ->)| ->]]]|H]; try done.
  by destruct H as (input & repo & n & _ & _ & _ & ->).
Qed.

Lemma run_repositories ops st : repositories (run ops st).2 = repositories st.
Proof.
  apply (run_invariant (λ st', repositories st' = repositories st)); [|done].
  intros op st' <-. apply exec_repositories.
Qed.

Lemma exec_next_id op st : _next_id st ≤ _next_id (exec op st).2.
Proof.
  destruct (exec_cases op st) as [[_ [->|[(input & pr & _ & ->)| ->]]]|H];
    simpl; try lia.
  destruct H as (input & repo & n & _ & _ & _ & ->). simpl. lia.
Qed.

Lemma run_next_id ops st : _next_id st ≤ _next_id (run ops st).2.
Proof.
  apply (run_invariant (λ st', _next_id st ≤ _next_id st')); [|lia].
  intros op st' H. pose proof (exec_next_id op st'). lia.
Qed.

Lemma exec_counter_seeded k op st :
  is_Some (Dict.get k (_next_pull_request_number st)) →
  is_Some (Dict.get k (_next_pull_request_number (exec op st).2)).
Proof.
  intros Hk.
  destruct (exec_cases op st) as [[_ [->|[(input & pr & _ & ->)| ->]]]|H];
    try done.
  destruct H as (input & repo & n & _ & _ & _ & ->). simpl.
  destruct (decide (CreatePullRequestInput.ownerId input = k)) as [<-|Hne].
  - rewrite DictFacts.get_set_eq. eauto.
  - by rewrite DictFacts.get_set_ne.
Qed.

(** The seeded repository and its counter are there in every reachable
    store. *)
Lemma reachable_seed st :
  reachable st →
  repositories st = [("1000", pytorch)]
  ∧ is_Some (Dict.get "1000" (_next_pull_request_number st)).
Proof.
  intros [ops <-]. split.
  - by rewrite run_repositories.
  - apply (run_invariant
             (λ st', is_Some (Dict.get "1000" (_next_pull_request_number st')))).
    + intros op st'. apply exec_counter_seeded.
    + simpl. eauto.
Qed.

(** ** Scanning the pull requests *)

Lemma filter_all {A} (P : A → Prop) `{!∀ x, Decision (P x)} (l : list A) :
  (∀ x, x ∈ l → P x) → filter P l = l.
Proof.
  induction l as [|x l IH]; intros Hall; [done|].
  rewrite filter_cons_True by apply Hall, list_elem_of_here.
  rewrite IH; [done|]. intros y Hy. by apply Hall, list_elem_of_further.
Qed.

(** A filter whose predicate never raises is the plain filter. *)
Lemma filter_raising_total {A} (p : A → Result bool) (P : A → Prop)
    `{!∀ x, Decision (P x)} (l : list A) :
  (∀ x, x ∈ l → p x = Return (bool_decide (P x))) →
  filter_raising p l = Return (filter P l).
Proof.
  induction l as [|x l IH]; intros Hp; [done|].
  simpl. rewrite (Hp x) by apply list_elem_of_here.
  rewrite IH by (intros y Hy; apply Hp; by apply list_elem_of_further).
  rewrite filter_cons. by destruct (decide (P x)) as [HP|HP];
    [rewrite bool_decide_true|rewrite bool_decide_false].
Qed.

(** A filter that returned kept the elements its predicate said yes to. *)
Lemma filter_raising_Return {A} (p : A → Result bool) (P : A → Prop)
    `{!∀ x, Decision (P x)} (l r : list A) :
  (∀ x b, x ∈ l → p x = Return b → b = true ↔ P x) →
  filter_raising p l = Return r → r = filter P l.
Proof.
  revert r. induction l as [|x l IH]; intros r Hp; simpl.
  - by intros [= <-].
  - destruct (p x) as [b|e] eqn:Ex; [|done].
    destruct (filter_raising p l) as [r'|e] eqn:El; [|done].
    intros [= <-]. rewrite filter_cons.
    rewrite (IH r') by (try done; intros y c Hy; apply Hp; by apply list_elem_of_further).
    pose proof (Hp x b (list_elem_of_here _ _) Ex) as Hb.
    destruct (decide (P x)) as [HP|HP], b; try done.
    + apply Hb in HP. done.
    + exfalso. apply HP, Hb. done.
Qed.

(** On a well-formed store the receiver's [__eq__] against the stored
    repository decides exactly whether the reference is the receiver's
    identifier. *)
Lemma owns_wf self st pr :
  store_wf st → live self st → pr ∈ Dict.values (pull_requests st) →
  Repository.owns self st pr
  = Return (bool_decide (PullRequest__repository pr = Repository_id self)).
Proof.
  intros Hwf Hlive [k Hin]%DictFacts.values_elem.
  destruct (wf_resolves _ Hwf _ _ Hin) as [r Er].
  unfold Repository.owns, PullRequest.repository, Dict.getitem. rewrite Er.
  f_equal. apply bool_decide_ext. split.
  - intros <-. symmetry.
    eapply wf_repositories_keys, DictFacts.get_Some_elem; eauto.
  - intros E. unfold live in Hlive. rewrite <- E, Er in Hlive. by injection Hlive.
Qed.

(** In general it decides whether the repository stored under the
    reference is, field by field, the receiver. *)
Lemma owns_Return self st pr b :
  Repository.owns self st pr = Return b →
  b = true ↔ Dict.get (PullRequest__repository pr) (repositories st) = Some self.
Proof.
  unfold Repository.owns, PullRequest.repository, Dict.getitem.
  destruct (Dict.get _ (repositories st)) as [r|]; [|done].
  intros [= <-]. rewrite bool_decide_eq_true. naive_solver.
Qed.

Lemma pullRequests_wf self st :
  store_wf st → live self st →
  Repository.pullRequests self st
  = Return (filter (λ pr, PullRequest__repository pr = Repository_id self)
              (Dict.values (pull_requests st))).
Proof.
  intros Hwf Hlive. apply filter_raising_total.
  intros pr Hpr. by apply owns_wf.
Qed.

Lemma pullRequest_loop_wf self st number prs :
  (∀ pr, pr ∈ prs →
     Repository.owns self st pr
     = Return (bool_decide (PullRequest__repository pr = Repository_id self))) →
  Repository.pullRequest_loop self st number prs =
  match list_find (λ pr, PullRequest__repository pr = Repository_id self
                         ∧ PullRequest_number pr = number) prs with
  | Some (_, pr) => Return pr
  | None =>
      Raise (RuntimeError ("unrecognized pull request #" +:+ str number +:+
                           " in repository " +:+ Repository_nameWithOwner self))
  end.
Proof.
  induction prs as [|pr prs IH]; intros Hp; [done|].
  simpl. rewrite (Hp pr) by apply list_elem_of_here.
  rewrite IH by (intros y Hy; apply Hp; by apply list_elem_of_further).
  destruct (decide (PullRequest__repository pr = Repository_id self
                    ∧ PullRequest_number pr = number)) as [[H1 H2]|Hn].
  - by rewrite !bool_decide_true.
  - destruct (list_find _ prs) as [[i p]|]; simpl;
      (destruct (decide (PullRequest__repository pr = Repository_id self));
       [rewrite bool_decide_true by done; rewrite (bool_decide_false (_ = number)) by tauto
       |rewrite bool_decide_false by done]; done).
Qed.

Lemma pullRequest_loop_Return self st number prs pr :
  Repository.pullRequest_loop self st number prs = Return pr →
  pr ∈ prs
  ∧ Dict.get (PullRequest__repository pr) (repositories st) = Some self
  ∧ PullRequest_number pr = number.
Proof.
  induction prs as [|x prs IH]; simpl; [done|].
  destruct (Repository.owns self st x) as [b|e] eqn:Eo; [|done].
  destruct (b && bool_decide (PullRequest_number x = number)) eqn:Eb.
  - intros [= <-]. apply andb_true_iff in Eb as [-> Hn%bool_decide_eq_true].
    split; [apply list_elem_of_here|]. split; [|done].
    by apply (owns_Return _ _ _ _ Eo).
  - intros H. destruct (IH H) as (Hin & Hget & Hnum).
    split; [by apply list_elem_of_further|done].
Qed.

(** The same under just the three conditions that matter: repositories
    under their own identifiers, references that resolve, and a receiver
    that is the store's repository. *)
Lemma store_wf_repositories_by_id st : store_wf st → repositories_by_id st.
Proof. intros Hwf k r. apply (wf_repositories_keys _ Hwf). Qed.

Lemma store_wf_references_resolve st : store_wf st → references_resolve st.
Proof.
  intros Hwf pr [k Hin]%DictFacts.values_elem. by apply (wf_resolves _ Hwf k).
Qed.

Lemma owns_by_identifier self st pr :
  repositories_by_id st → live self st →
  is_Some (Dict.get (PullRequest__repository pr) (repositories st)) →
  Repository.owns self st pr
  = Return (bool_decide (PullRequest__repository pr = Repository_id self)).
Proof.
  intros Hkeys Hlive [r Er].
  unfold Repository.owns, PullRequest.repository, Dict.getitem. rewrite Er.
  f_equal. apply bool_decide_ext. split.
  - intros <-. symmetry. by apply Hkeys, DictFacts.get_Some_elem.
  - intros E. unfold live in Hlive. rewrite <- E, Er in Hlive. by injection Hlive.
Qed.

Lemma pullRequests_by_identifier self st :
  repositories_by_id st → references_resolve st → live self st →
  Repository.pullRequests self st
  = Return (filter (λ pr, PullRequest__repository pr = Repository_id self)
              (Dict.values (pull_requests st))).
Proof.
  intros Hkeys Hres Hlive. apply filter_raising_total.
  intros pr Hpr. apply owns_by_identifier; auto.
Qed.

(** ** Creation appends *)

Lemma next_id_fresh st :
  store_wf st →
  Dict.get (str (_next_id st)) (repositories st) = None
  ∧ Dict.get (str (_next_id st)) (pull_requests st) = None.
Proof.
  intros Hwf.
  assert (Hnew : str (_next_id st) ∉ Dict.keys (repositories st)
                                      ++ Dict.keys (pull_requests st)).
  { intros Hin. by apply (wf_fresh _ Hwf _ (_next_id st) Hin). }
  rewrite not_elem_of_app in Hnew.
  split; apply DictFacts.get_None_keys; tauto.
Qed.

Lemma values_app {V} (d1 d2 : dict V) :
  Dict.values (d1 ++ d2) = Dict.values d1 ++ Dict.values d2.
Proof. unfold Dict.values. apply fmap_app. Qed.

Lemma keys_app {V} (d1 d2 : dict V) :
  Dict.keys (d1 ++ d2) = Dict.keys d1 ++ Dict.keys d2.
Proof. unfold Dict.keys. apply fmap_app. Qed.

(** In a well-formed store the identifiers of the entities are the keys. *)
Lemma ids_keys {V} (f : V → GraphQLId) (d : dict V) :
  (∀ k v, (k, v) ∈ d → f v = k) → f <$> Dict.values d = Dict.keys d.
Proof.
  unfold Dict.values, Dict.keys. induction d as [|[k v] d IH]; intros H; [done|].
  simpl. rewrite (H k v) by apply list_elem_of_here. f_equal.
  apply IH. intros k' v' Hin. apply H. by apply list_elem_of_further.
Qed.

(** A successful creation, seen from the repository it goes to. *)
Lemma createPullRequest_appends self input st payload st' :
  store_wf st → live self st →
  CreatePullRequestInput.ownerId input = Repository_id self →
  Root.createPullRequest input st = (Return payload, st') →
  ∃ l, Repository.pullRequests self st = Return l
       ∧ Repository.pullRequests self st'
         = Return (l ++ [CreatePullRequestPayload.pullRequest payload]).
Proof.
  intros Hwf Hlive Howner Hrun.
  pose proof (createPullRequest_wf input st Hwf) as Hwf'.
  rewrite Hrun in Hwf'. simpl in Hwf'.
  rewrite createPullRequest_eq in Hrun. simpl in Hrun.
  destruct (Dict.get _ (repositories st)) as [repo|] eqn:Er; [|done].
  destruct (Dict.get _ (_next_pull_request_number st)) as [n|] eqn:En; [|done].
  injection Hrun as <- <-. simpl.
  eexists. split; [by apply pullRequests_wf|].
  rewrite pullRequests_wf by done. simpl.
  rewrite DictFacts.set_fresh by (by apply next_id_fresh).
  rewrite values_app, filter_app. simpl.
  rewrite filter_cons, decide_True by done. by rewrite filter_nil.
Qed.

(** The keys of the pull-request map along a run: the old ones, then the
    identifiers of the pull requests created, in creation order. *)
Lemma run_pull_request_keys ops st :
  store_wf st →
  Dict.keys (pull_requests (run ops st).2)
  = Dict.keys (pull_requests st)
    ++ (PullRequest_id <$> created_pull_requests (run ops st).1).
Proof.
  revert st. induction ops as [|op ops IH]; intros st Hwf.
  - simpl. by rewrite app_nil_r.
  - rewrite run_cons. cbn [fst snd]. rewrite created_pull_requests_cons, fmap_app.
    rewrite IH by by apply exec_wf. rewrite app_assoc. f_equal.
    destruct (exec_cases op st)
      as [[-> [->|[(input & pr & E & ->)| ->]]]|H].
    + by rewrite app_nil_r.
    + rewrite app_nil_r. apply DictFacts.keys_set_present. eauto.
    + by rewrite app_nil_r.
    + destruct H as (input & repo & n & _ & _ & -> & ->). simpl.
      rewrite DictFacts.set_fresh by (by apply next_id_fresh).
      by rewrite keys_app.
Qed.

(** The same from the conditions it needs: the three above, and an
    identifier counter whose next identifier is not yet a key of the
    pull-request map. *)
Lemma createPullRequest_appends_fresh self input st payload st' :
  repositories_by_id st → references_resolve st → live self st →
  Dict.get (str (_next_id st)) (pull_requests st) = None →
  CreatePullRequestInput.ownerId input = Repository_id self →
  Root.createPullRequest input st = (Return payload, st') →
  ∃ l, Repository.pullRequests self st = Return l
       ∧ Repository.pullRequests self st'
         = Return (l ++ [CreatePullRequestPayload.pullRequest payload]).
Proof.
  intros Hkeys Hres Hlive Hfresh Howner Hrun.
  rewrite createPullRequest_eq in Hrun. simpl in Hrun.
  destruct (Dict.get _ (repositories st)) as [repo|] eqn:Er; [|done].
  destruct (Dict.get _ (_next_pull_request_number st)) as [n|] eqn:En; [|done].
  injection Hrun as <- <-. simpl.
  eexists. split; [by apply pullRequests_by_identifier|].
  rewrite pullRequests_by_identifier; simpl.
  - rewrite DictFacts.set_fresh by done.
    rewrite values_app, filter_app. simpl.
    rewrite filter_cons, decide_True by done. by rewrite filter_nil.
  - done.
  - intros pr. simpl. rewrite DictFacts.set_fresh by done. rewrite values_app.
    intros [Hin| ->%list_elem_of_singleton]%elem_of_app; [by apply Hres|].
    simpl. eauto.
  - done.
Qed.

(** Every pull request of a reachable store belongs to the seeded
    repository. *)
Lemma reachable_owner st pr :
  reachable st → pr ∈ Dict.values (pull_requests st) →
  PullRequest__repository pr = "1000".
Proof.
  intros Hreach [k Hin]%DictFacts.values_elem.
  destruct (wf_resolves _ (reachable_wf _ Hreach) _ _ Hin) as [r Er].
  destruct (reachable_seed _ Hreach) as [Hrepos _]. rewrite Hrepos in Er.
  simpl in Er. by destruct (decide ("1000" = PullRequest__repository pr)).
Qed.

(** ** Numbers and identifiers along a run *)

Lemma created_numbers_cons owner r rs :
  created_numbers owner (r :: rs) =
  created_numbers owner [r] ++ created_numbers owner rs.
Proof.
  unfold created_numbers.
  by rewrite created_pull_requests_cons, filter_app, fmap_app.
Qed.

(** One call either hands out the repository's current number and moves
    its counter by one, or hands out none and leaves the counter alone. *)
Lemma exec_created_numbers owner n op st :
  Dict.get owner (_next_pull_request_number st) = Some n →
  (created_numbers owner [(exec op st).1] = [n]
   ∧ Dict.get owner (_next_pull_request_number (exec op st).2) = Some (n + 1))
  ∨ (created_numbers owner [(exec op st).1] = []
     ∧ Dict.get owner (_next_pull_request_number (exec op st).2) = Some n).
Proof.
  intros Hn. unfold created_numbers.
  destruct (exec_cases op st)
    as [[-> [->|[(input & pr & E & ->)| ->]]]|H]; try by right.
  destruct H as (input & repo & m & _ & Hm & -> & ->). simpl.
  rewrite filter_cons. simpl.
  destruct (decide (CreatePullRequestInput.ownerId input = owner)) as [<-|Hne].
  - left. rewrite Hn in Hm. injection Hm as <-.
    by rewrite DictFacts.get_set_eq.
  - right. by rewrite DictFacts.get_set_ne.
Qed.

Lemma run_created_numbers ops st owner n :
  Dict.get owner (_next_pull_request_number st) = Some n →
  created_numbers owner (run ops st).1
  = seqZ n (Z.of_nat (length (created_numbers owner (run ops st).1))).
Proof.
  revert st n. induction ops as [|op ops IH]; intros st n Hn; [done|].
  rewrite run_cons. cbn [fst snd]. rewrite created_numbers_cons.
  destruct (exec_created_numbers owner n op st Hn) as [[-> Hn']|[-> Hn']].
  - simpl. rewrite (seqZ_cons n) by lia. f_equal.
    rewrite (IH _ _ Hn') at 1. f_equal; lia.
  - simpl. by apply IH.
Qed.

(** While the seeded repository is the only one, every pull request
    created goes to it and carries its URL. *)
Lemma run_created_seeded ops st pr :
  repositories st = [("1000", pytorch)] →
  pr ∈ created_pull_requests (run ops st).1 →
  PullRequest__repository pr = "1000"
  ∧ PullRequest_url pr
    = "https://github.com/pytorch/pytorch/pull/" +:+ str (PullRequest_number pr).
Proof.
  revert st. induction ops as [|op ops IH]; intros st Hrepos.
  - intros H. by apply elem_of_nil in H.
  - rewrite run_cons. cbn [fst snd]. rewrite created_pull_requests_cons.
    intros [Hin|Hin]%elem_of_app.
    + destruct (exec_cases op st) as [[E _]|H].
      { rewrite E in Hin. by apply elem_of_nil in Hin. }
      destruct H as (input & repo & n & Er & _ & E & _).
      rewrite E in Hin. apply list_elem_of_singleton in Hin as ->.
      rewrite Hrepos in Er. simpl in Er.
      destruct (decide ("1000" = CreatePullRequestInput.ownerId input))
        as [Ho|]; [|done].
      injection Er as <-. by split; simpl.
    + apply (IH (exec op st).2); [|done]. by rewrite exec_repositories.
Qed.

(** ** Joining messages *)

Lemma join_cons sep x y l : join sep (x :: y :: l) = x +:+ sep +:+ join sep (y :: l).
Proof. done. Qed.

Lemma string_app_assoc (a b c : string) : (a +:+ b) +:+ c = a +:+ (b +:+ c).
Proof.
  induction a as [|ch a IH]; [done|].
  change (String ch ((a +:+ b) +:+ c) = String ch (a +:+ (b +:+ c))).
  by rewrite IH.
Qed.

Lemma string_app_nil_r (a : string) : a +:+ "" = a.
Proof.
  induction a as [|ch a IH]; [done|].
  change (String ch (a +:+ "") = String ch a). by rewrite IH.
Qed.

(** Every string joined is still there in the result. *)
Lemma join_contains sep l s :
  s ∈ l → ∃ before after, join sep l = before +:+ s +:+ after.
Proof.
  induction l as [|x l IH]; [by intros H%elem_of_nil|].
  intros [->|Hin]%elem_of_cons.
  - destruct l as [|y l].
    + exists "", "". simpl. by rewrite string_app_nil_r.
    + exists "", (sep +:+ join sep (y :: l)). by rewrite join_cons.
  - destruct l as [|y l]; [by apply elem_of_nil in Hin|].
    destruct (IH Hin) as (before & after & E).
    exists (x +:+ sep +:+ before), after.
    by rewrite join_cons, E, !string_app_assoc.
Qed.

(** * The claims *)

(** C1. [updatePullRequest] on a pull request of the store sets [title],
    [baseRefName] and [body] to the input's value exactly where the input
    field is present and not null, and keeps the old value otherwise; [id],
    [number], [url], [headRefName] and the owning-repository reference stay
    as they were, and so do every other pull request, the order of the pull
    requests, the repositories and both counters.  With none of the three
    fields set the entity and the whole store are unchanged. *)
Theorem updatePullRequest_frame
    (st : GitHubState) (input : UpdatePullRequestInput.t) (pr : PullRequest) :
  Dict.get (UpdatePullRequestInput.pullRequestId input) (pull_requests st) = Some pr →
  ∃ pr' st',
    Root.updatePullRequest input st =
      (Return (UpdatePullRequestPayload.mk
                 (dict_get_default (UpdatePullRequestInput.clientMutationId input))
                 pr'), st')
    ∧ Dict.get (UpdatePullRequestInput.pullRequestId input) (pull_requests st') = Some pr'
    ∧ PullRequest_title pr' =
        match UpdatePullRequestInput.title input with
        | Value v => v | _ => PullRequest_title pr end
    ∧ PullRequest_baseRefName pr' =
        match UpdatePullRequestInput.baseRefName input with
        | Value v => v | _ => PullRequest_baseRefName pr end
    ∧ PullRequest_body pr' =
        match UpdatePullRequestInput.body input with
        | Value v => v | _ => PullRequest_body pr end
    ∧ PullRequest_id pr' = PullRequest_id pr
    ∧ PullRequest_number pr' = PullRequest_number pr
    ∧ PullRequest_url pr' = PullRequest_url pr
    ∧ PullRequest_headRefName pr' = PullRequest_headRefName pr
    ∧ PullRequest__repository pr' = PullRequest__repository pr
    ∧ (∀ k, k ≠ UpdatePullRequestInput.pullRequestId input →
            Dict.get k (pull_requests st') = Dict.get k (pull_requests st))
    ∧ Dict.keys (pull_requests st') = Dict.keys (pull_requests st)
    ∧ repositories st' = repositories st
    ∧ _next_id st' = _next_id st
    ∧ _next_pull_request_number st' = _next_pull_request_number st
    ∧ (present (UpdatePullRequestInput.title input) = None →
       present (UpdatePullRequestInput.baseRefName input) = None →
       present (UpdatePullRequestInput.body input) = None →
       pr' = pr ∧ st' = st).
Proof.
  intros E. eexists (updated input pr), _.
  split; [by rewrite updatePullRequest_eq; simpl; rewrite E|]. simpl.
  split; [apply DictFacts.get_set_eq|].
  do 8 (split; [done|]).
  split; [by intros k Hk; apply DictFacts.get_set_ne|].
  split; [apply DictFacts.keys_set_present; eauto|].
  do 3 (split; [done|]).
  intros Ht Hb Hbo.
  assert (updated input pr = pr) as ->.
  { destruct pr, input as [b t bo c key]; simpl in *.
    by destruct t, b, bo. }
  by rewrite (DictFacts.set_same _ _ _ E), set_pull_requests_id.
Qed.

Lemma updatePullRequest_frame_witness :
  Dict.get "5000" (pull_requests store1) = Some pr5000
  ∧ ∃ pr' st',
      Root.updatePullRequest sample_update store1 =
        (Return (UpdatePullRequestPayload.mk None pr'), st')
      ∧ PullRequest_title pr' = "T2"
      ∧ PullRequest_body pr' = "B".
Proof.
  split; [reflexivity|].
  destruct (updatePullRequest_frame store1 sample_update pr5000 eq_refl)
    as (pr' & st' & Hrun & _ & Ht & _ & Hb & _).
  exists pr', st'. split; [exact Hrun|]. split; [exact Ht|exact Hb].
Defined.

(** C2. Along any run of resolver calls, from any store in which
    repository [owner] has its counter at [n], the numbers returned by the
    successful [createPullRequest] calls targeting [owner] are [n], [n+1],
    [n+2], ... in call order.  From the seeded store the pull requests
    created are numbered 500, 501, ..., all belong to repository ["1000"]
    and carry the URL ["https://github.com/pytorch/pytorch/pull/<number>"];
    the first creation for ["1000"] returns number 500 with URL
    ["https://github.com/pytorch/pytorch/pull/500"], the second 501. *)
Theorem createPullRequest_numbers :
  (∀ ops st owner n,
     Dict.get owner (_next_pull_request_number st) = Some n →
     created_numbers owner (run ops st).1
     = seqZ n (Z.of_nat (length (created_numbers owner (run ops st).1))))
  ∧ (∀ ops,
       PullRequest_number <$> created_pull_requests (run ops GitHubState.init).1
       = seqZ 500 (Z.of_nat (length (created_pull_requests
                                       (run ops GitHubState.init).1)))
       ∧ ∀ pr, pr ∈ created_pull_requests (run ops GitHubState.init).1 →
               PullRequest__repository pr = "1000"
               ∧ PullRequest_url pr
                 = "https://github.com/pytorch/pytorch/pull/"
                   +:+ str (PullRequest_number pr))
  ∧ (∀ input1 input2,
       CreatePullRequestInput.ownerId input1 = "1000" →
       CreatePullRequestInput.ownerId input2 = "1000" →
       ∃ p1 st1 p2 st2,
         Root.createPullRequest input1 GitHubState.init = (Return p1, st1)
         ∧ PullRequest_number (CreatePullRequestPayload.pullRequest p1) = 500
         ∧ PullRequest_url (CreatePullRequestPayload.pullRequest p1)
           = "https://github.com/pytorch/pytorch/pull/500"
         ∧ Root.createPullRequest input2 st1 = (Return p2, st2)
         ∧ PullRequest_number (CreatePullRequestPayload.pullRequest p2) = 501).
Proof.
  split_and!.
  - apply run_created_numbers.
  - intros ops.
    assert (Hall : ∀ pr, pr ∈ created_pull_requests (run ops GitHubState.init).1 →
                         PullRequest__repository pr = "1000"
                         ∧ PullRequest_url pr
                           = "https://github.com/pytorch/pytorch/pull/"
                             +:+ str (PullRequest_number pr)).
    { intros pr. by apply run_created_seeded. }
    split; [|done].
    pose proof (run_created_numbers ops GitHubState.init "1000" 500 eq_refl) as H.
    unfold created_numbers in H.
    rewrite filter_all in H by (intros pr Hpr; by apply Hall).
    by rewrite length_fmap in H.
  - intros input1 input2 H1 H2.
    do 4 eexists. rewrite !createPullRequest_eq. simpl. rewrite H1. simpl.
    split; [reflexivity|]. simpl. rewrite H2. simpl. done.
Qed.

Lemma createPullRequest_numbers_witness :
  created_numbers "1000"
    (run [Op_createPullRequest sample_create; Op_createPullRequest sample_orphan;
          Op_createPullRequest sample_create] GitHubState.init).1
  = [500; 501]
  ∧ ∃ p1 st1 p2 st2,
      Root.createPullRequest sample_create GitHubState.init = (Return p1, st1)
      ∧ PullRequest_number (CreatePullRequestPayload.pullRequest p1) = 500
      ∧ PullRequest_url (CreatePullRequestPayload.pullRequest p1)
        = "https://github.com/pytorch/pytorch/pull/500"
      ∧ Root.createPullRequest sample_create st1 = (Return p2, st2)
      ∧ PullRequest_number (CreatePullRequestPayload.pullRequest p2) = 501.
Proof.
  split.
  - exact (proj1 createPullRequest_numbers
             [Op_createPullRequest sample_create; Op_createPullRequest sample_orphan;
              Op_createPullRequest sample_create]
             GitHubState.init "1000" 500 eq_refl).
  - exact (proj2 (proj2 createPullRequest_numbers)
             sample_create sample_create eq_refl eq_refl).
Defined.

(** C3. After any run of resolver calls from the seeded store, the
    identifiers of the live entities are the seeded repository's ["1000"]
    followed by the identifiers of the pull requests created, and they are
    pairwise distinct, repositories and pull requests together; the
    identifier the allocator would hand out next is none of them; and once
    [next_id] has handed out an identifier, no later call of it, after
    whatever calls in between, hands out the same one again. *)
Theorem identifiers_distinct :
  (∀ ops,
     live_ids (run ops GitHubState.init).2
     = "1000" :: (PullRequest_id <$> created_pull_requests (run ops GitHubState.init).1)
     ∧ NoDup (live_ids (run ops GitHubState.init).2)
     ∧ ∃ id st',
         GitHubState.next_id (run ops GitHubState.init).2 = (Return id, st')
         ∧ id ∉ live_ids (run ops GitHubState.init).2)
  ∧ (∀ st ops,
       ∃ id1 st1 id2 st2,
         GitHubState.next_id st = (Return id1, st1)
         ∧ GitHubState.next_id (run ops st1).2 = (Return id2, st2)
         ∧ id1 ≠ id2).
Proof.
  split.
  - intros ops. set (st := (run ops GitHubState.init).2).
    pose proof (run_wf ops _ init_wf) as Hwf. fold st in Hwf.
    assert (Hids : live_ids st
                   = Dict.keys (repositories st) ++ Dict.keys (pull_requests st)).
    { unfold live_ids.
      rewrite (ids_keys Repository_id) by apply (wf_repositories_keys _ Hwf).
      by rewrite (ids_keys PullRequest_id) by apply (wf_pull_requests_keys _ Hwf). }
    split_and!.
    + rewrite Hids. unfold st.
      by rewrite run_repositories, run_pull_request_keys by apply init_wf.
    + rewrite Hids. apply NoDup_app. split_and!.
      * apply Hwf.
      * apply Hwf.
      * apply Hwf.
    + do 2 eexists. split; [apply next_id_eq|].
      rewrite Hids. intros Hin.
      by apply (wf_fresh _ Hwf _ (_next_id st) Hin).
  - intros st ops. do 4 eexists. split_and!; [apply next_id_eq..|].
    intros E%str_inj.
    pose proof (run_next_id ops (GitHubState.set__next_id (_next_id st + 1) st)) as H.
    simpl in H. lia.
Qed.




(** C5, as the code has it.  In a store whose repositories are stored
    under their own identifiers and whose owning-repository references all
    resolve, and for a repository that is the value the store holds under
    its identifier, [pullRequests] returns exactly the pull requests whose
    owning-repository reference is the repository's identifier, in the
    iteration order of the pull-request map and with nothing sorted.  If
    moreover the identifier the allocator hands out next is not yet a key of
    the pull-request map, a successful [createPullRequest] targeting the
    repository makes that list one longer, the new pull request last.
    Every reachable store meets these conditions for the seeded repository:
    its list is empty on the seeded store; in every reachable store a
    [createPullRequest] with [ownerId] ["1000"] succeeds and appends its
    pull request to the list; and after any run the list holds, in creation
    order, the pull requests the run created. *)
Theorem pullRequests_creation_order :
  (∀ st self,
     repositories_by_id st → references_resolve st → live self st →
     Repository.pullRequests self st
     = Return (filter (λ pr, PullRequest__repository pr = Repository_id self)
                 (Dict.values (pull_requests st))))
  ∧ (∀ st self input payload st',
       repositories_by_id st → references_resolve st → live self st →
       Dict.get (str (_next_id st)) (pull_requests st) = None →
       CreatePullRequestInput.ownerId input = Repository_id self →
       Root.createPullRequest input st = (Return payload, st') →
       ∃ l, Repository.pullRequests self st = Return l
            ∧ Repository.pullRequests self st'
              = Return (l ++ [CreatePullRequestPayload.pullRequest payload]))
  ∧ Repository.pullRequests pytorch GitHubState.init = Return []
  ∧ (∀ st input,
       reachable st →
       CreatePullRequestInput.ownerId input = "1000" →
       ∃ payload st' l,
         Root.createPullRequest input st = (Return payload, st')
         ∧ Repository.pullRequests pytorch st = Return l
         ∧ Repository.pullRequests pytorch st'
           = Return (l ++ [CreatePullRequestPayload.pullRequest payload]))
  ∧ (∀ ops,
       ∃ l, Repository.pullRequests pytorch (run ops GitHubState.init).2 = Return l
            ∧ PullRequest_id <$> l
              = PullRequest_id <$> created_pull_requests (run ops GitHubState.init).1).
Proof.
  split_and!.
  - intros st self. apply pullRequests_by_identifier.
  - intros st self input payload st'. apply createPullRequest_appends_fresh.
  - reflexivity.
  - intros st input Hreach Howner.
    destruct (reachable_seed _ Hreach) as [Hrepos [n Hn]].
    assert (Hlive : live pytorch st).
    { unfold live. by rewrite Hrepos. }
    destruct (Root.createPullRequest input st) as [res st'] eqn:Hrun.
    assert (∃ payload, res = Return payload) as [payload ->].
    { rewrite createPullRequest_eq in Hrun. simpl in Hrun.
      rewrite Howner, Hrepos, Hn in Hrun. simpl in Hrun.
      injection Hrun as <- _. eauto. }
    exists payload, st'.
    destruct (createPullRequest_appends pytorch input st payload st')
      as (l & Hl & Hl'); auto using reachable_wf.
    exists l. done.
  - intros ops. set (st := (run ops GitHubState.init).2).
    assert (Hreach : reachable st) by by exists ops.
    pose proof (reachable_wf _ Hreach) as Hwf.
    destruct (reachable_seed _ Hreach) as [Hrepos _].
    eexists. split.
    { apply pullRequests_wf; [done|]. unfold live. by rewrite Hrepos. }
    rewrite filter_all by (intros pr Hpr; by apply (reachable_owner st)).
    rewrite (ids_keys PullRequest_id) by apply (wf_pull_requests_keys _ Hwf).
    unfold st. by rewrite run_pull_request_keys by apply init_wf.
Qed.

Lemma pullRequests_creation_order_witness :
  Repository.pullRequests pytorch store1 = Return [pr5000]
  ∧ (∃ l, Repository.pullRequests pytorch GitHubState.init = Return l
          ∧ Repository.pullRequests pytorch store1 = Return (l ++ [pr5000]))
  ∧ ∃ payload st' l,
      Root.createPullRequest sample_create GitHubState.init = (Return payload, st')
      ∧ Repository.pullRequests pytorch GitHubState.init = Return l
      ∧ Repository.pullRequests pytorch st'
        = Return (l ++ [CreatePullRequestPayload.pullRequest payload]).
Proof.
  split; [|split].
  - apply (proj1 pullRequests_creation_order store1 pytorch
             (store_wf_repositories_by_id _
                (createPullRequest_wf sample_create _ init_wf))
             (store_wf_references_resolve _
                (createPullRequest_wf sample_create _ init_wf))).
    reflexivity.
  - apply (proj1 (proj2 pullRequests_creation_order)
             GitHubState.init pytorch sample_create
             (CreatePullRequestPayload.mk None pr5000) store1
             (store_wf_repositories_by_id _ init_wf)
             (store_wf_references_resolve _ init_wf)); reflexivity.
  - apply (proj1 (proj2 (proj2 (proj2 pullRequests_creation_order)))
             GitHubState.init sample_create).
    + exists []. reflexivity.
    + reflexivity.
Defined.

(** C5, as the specification has it, fails: not for every store state.  In
    a store where one pull request refers to a repository that is not
    there, [pullRequests] of the seeded repository, which is in the store
    and owns the other pull request, raises the [KeyError] of the failed
    repository lookup instead of returning that pull request. *)
Lemma pullRequests_not_for_every_store :
  live pytorch store_dangling
  ∧ pr5000 ∈ Dict.values (pull_requests store_dangling)
  ∧ PullRequest__repository pr5000 = Repository_id pytorch
  ∧ Repository.pullRequests pytorch store_dangling = Raise (KeyError "2000").
Proof.
  split; [reflexivity|]. split; [apply list_elem_of_here|].
  split; reflexivity.
Qed.

(** C6. In every store reachable from the seeded one by resolver calls,
    queries and mutations alike, the owning-repository reference of every
    pull request resolves: [PullRequest.repository] returns, and what it
    returns is the repository the store holds under that reference. *)
Theorem reachable_references_resolve (st : GitHubState) (pr : PullRequest) :
  reachable st →
  pr ∈ Dict.values (pull_requests st) →
  ∃ r, PullRequest.repository pr st = Return r
       ∧ Repository_id r = PullRequest__repository pr
       ∧ live r st.
Proof.
  intros Hwf%reachable_wf [k Hin]%DictFacts.values_elem.
  destruct (wf_resolves _ Hwf _ _ Hin) as [r Er].
  assert (Repository_id r = PullRequest__repository pr) as Hid.
  { eapply wf_repositories_keys, DictFacts.get_Some_elem; eauto. }
  exists r. unfold PullRequest.repository, Dict.getitem, live.
  by rewrite Er, Hid.
Qed.

Lemma reachable_references_resolve_witness :
  ∃ r, PullRequest.repository pr5000 store1 = Return r
       ∧ Repository_id r = "1000"
       ∧ live r store1.
Proof.
  apply (reachable_references_resolve store1 pr5000).
  - exists [Op_createPullRequest sample_create]. reflexivity.
  - apply list_elem_of_here.
Defined.

(** C7. [node(id)] returns the repository stored under [id] if there is
    one, otherwise the pull request stored under [id] if there is one, and
    otherwise raises a [RuntimeError] whose message is ["unknown id "]
    followed by the identifier; in a well-formed store the entity returned
    carries the identifier asked for.  On the seeded store, and on every
    reachable store whose identifier counter has not passed 9999,
    [node("9999")] raises ["unknown id 9999"]. *)
Theorem node_lookup (id : GraphQLId) (st : GitHubState) :
  (∀ r, Dict.get id (repositories st) = Some r →
        Root.node id st = Return (NodeRepository r))
  ∧ (∀ p, Dict.get id (repositories st) = None →
          Dict.get id (pull_requests st) = Some p →
          Root.node id st = Return (NodePullRequest p))
  ∧ (Dict.get id (repositories st) = None →
     Dict.get id (pull_requests st) = None →
     Root.node id st = Raise (RuntimeError ("unknown id " +:+ id)))
  ∧ (store_wf st → ∀ n, Root.node id st = Return n → Node_id n = id)
  ∧ Root.node "9999" GitHubState.init = Raise (RuntimeError "unknown id 9999")
  ∧ (∀ ops, _next_id (run ops GitHubState.init).2 ≤ 9999 →
            Root.node "9999" (run ops GitHubState.init).2
            = Raise (RuntimeError "unknown id 9999")).
Proof.
  assert (Hrepo : ∀ i s r, Dict.get i (repositories s) = Some r →
                            Root.node i s = Return (NodeRepository r)).
  { intros i s r E. unfold Root.node, Dict.contains, Dict.getitem. by rewrite E. }
  assert (Hpr : ∀ i s p, Dict.get i (repositories s) = None →
                          Dict.get i (pull_requests s) = Some p →
                          Root.node i s = Return (NodePullRequest p)).
  { intros i s p Er Ep. unfold Root.node, Dict.contains, Dict.getitem.
    by rewrite Er, Ep. }
  assert (Hnone : ∀ i s, Dict.get i (repositories s) = None →
                         Dict.get i (pull_requests s) = None →
                         Root.node i s = Raise (RuntimeError ("unknown id " +:+ i))).
  { intros i s Er Ep. unfold Root.node, Dict.contains. by rewrite Er, Ep. }
  split_and!; eauto.
  - intros Hwf n.
    destruct (Dict.get id (repositories st)) as [r|] eqn:Er.
    { rewrite (Hrepo _ _ _ Er). intros [= <-]. simpl.
      eapply wf_repositories_keys, DictFacts.get_Some_elem; eauto. }
    destruct (Dict.get id (pull_requests st)) as [p|] eqn:Ep.
    { rewrite (Hpr _ _ _ Er Ep). intros [= <-]. simpl.
      eapply wf_pull_requests_keys, DictFacts.get_Some_elem; eauto. }
    by rewrite (Hnone _ _ Er Ep).
  - intros ops Hle.
    pose proof (run_wf ops _ init_wf) as Hwf.
    assert (Hfresh : "9999" ∉ Dict.keys (repositories (run ops GitHubState.init).2)
                              ++ Dict.keys (pull_requests (run ops GitHubState.init).2)).
    { intros Hin. by apply (wf_fresh _ Hwf _ 9999 Hin). }
    rewrite not_elem_of_app in Hfresh. destruct Hfresh as [Hr Hp].
    apply Hnone; by apply DictFacts.get_None_keys.
Qed.

Lemma node_lookup_witness :
  Root.node "1000" store1 = Return (NodeRepository pytorch)
  ∧ Root.node "5000" store1 = Return (NodePullRequest pr5000)
  ∧ Root.node "9999" store1 = Raise (RuntimeError "unknown id 9999")
  ∧ Node_id (NodePullRequest pr5000) = "5000"
  ∧ Root.node "9999" (run [Op_createPullRequest sample_create] GitHubState.init).2
    = Raise (RuntimeError "unknown id 9999").
Proof.
  split; [|split; [|split; [|split]]].
  - apply (proj1 (node_lookup "1000" store1) pytorch). reflexivity.
  - apply (proj1 (proj2 (node_lookup "5000" store1)) pr5000); reflexivity.
  - apply (proj1 (proj2 (proj2 (node_lookup "9999" store1)))); reflexivity.
  - apply (proj1 (proj2 (proj2 (proj2 (node_lookup "5000" store1))))
             (createPullRequest_wf sample_create _ init_wf)).
    reflexivity.
  - apply (proj2 (proj2 (proj2 (proj2 (proj2 (node_lookup "9999" store1)))))
             [Op_createPullRequest sample_create]).
    vm_compute. discriminate.
Defined.

(** C8. Whatever the engine returns for a query, the facade does one of two
    things.  If the engine reports no error ([errors] is [None] or empty),
    the facade returns the one-key dictionary [{'data': r.data}].  If it
    reports errors, the facade raises one [RuntimeError] whose message is
    the header followed by the [str] of every error, joined by newlines, so
    each error's message is part of it; nothing is returned in that case,
    whatever [data] holds.  The store is left as the engine left it. *)
Theorem graphql_facade {Data GraphQLError Variables : Type}
    (error_str : GraphQLError → string)
    (graphql_sync : string → Variables → GitHubState →
                    FakeGitHubGraphQLEndpoint.ExecutionResult * GitHubState)
    (query : string) (kwargs : Variables) (st : GitHubState) :
  let r : @FakeGitHubGraphQLEndpoint.ExecutionResult Data GraphQLError :=
    (graphql_sync query kwargs st).1 in
  let st' := (graphql_sync query kwargs st).2 in
  let out := FakeGitHubGraphQLEndpoint.graphql error_str graphql_sync query kwargs st in
  (FakeGitHubGraphQLEndpoint.errors r = None
   ∨ FakeGitHubGraphQLEndpoint.errors r = Some [] →
   out = (Return [("data", FakeGitHubGraphQLEndpoint.data r)], st'))
  ∧ (∀ e es,
       FakeGitHubGraphQLEndpoint.errors r = Some (e :: es) →
       out = (Raise (RuntimeError
                       ("GraphQL query failed with errors:" +:+ nl +:+ nl +:+
                        join nl (error_str <$> e :: es))), st')
       ∧ ∀ e', e' ∈ e :: es →
           ∃ before after,
             join nl (error_str <$> e :: es) = before +:+ error_str e' +:+ after)
  ∧ (out = (Return [("data", FakeGitHubGraphQLEndpoint.data r)], st')
     ∨ ∃ msg, out = (Raise (RuntimeError msg), st')).
Proof.
  intros r st' out. subst r st' out. unfold FakeGitHubGraphQLEndpoint.graphql.
  destruct (graphql_sync query kwargs st) as [[d es] st1].
  cbn [fst snd FakeGitHubGraphQLEndpoint.errors FakeGitHubGraphQLEndpoint.data].
  split_and!.
  - by intros [->| ->].
  - intros e es' ->. split; [done|].
    intros e' Hin. apply (join_contains nl (error_str <$> e :: es')).
    by apply list_elem_of_fmap_2.
  - destruct es as [[|e es']|]; simpl; eauto.
Qed.

Lemma graphql_facade_witness :
  FakeGitHubGraphQLEndpoint.graphql (λ e, e)
    (sample_engine (FakeGitHubGraphQLEndpoint.mkExecutionResult (Some "{}") None))
    "query" () GitHubState.init
  = (Return [("data", Some "{}")], GitHubState.init)
  ∧ FakeGitHubGraphQLEndpoint.graphql (λ e, e)
      (sample_engine (FakeGitHubGraphQLEndpoint.mkExecutionResult
                        (Some "partial") (Some ["boom"; "bang"])))
      "query" () GitHubState.init
    = (Raise (RuntimeError
                ("GraphQL query failed with errors:" +:+ nl +:+ nl +:+
                 "boom" +:+ nl +:+ "bang")), GitHubState.init).
Proof.
  split.
  - apply (proj1 (graphql_facade (λ e, e)
                    (sample_engine (FakeGitHubGraphQLEndpoint.mkExecutionResult
                                      (Some "{}") None))
                    "query" () GitHubState.init)).
    left. reflexivity.
  - apply (proj1 (proj2 (graphql_facade (λ e, e)
                    (sample_engine (FakeGitHubGraphQLEndpoint.mkExecutionResult
                                      (Some "partial") (Some ["boom"; "bang"])))
                    "query" () GitHubState.init)) "boom" ["bang"] eq_refl).
Defined.

(** C9. [next_pull_request_number] on a repository identifier without a
    counter raises (the [KeyError] of the failed lookup) and leaves the
    store, its counters included, as it was; on an identifier with a counter
    it returns the counter's current value and advances that one counter by
    one, nothing else. *)
Theorem next_pull_request_number_spec (repo_id : GraphQLId) (st : GitHubState) :
  (Dict.get repo_id (_next_pull_request_number st) = None →
   GitHubState.next_pull_request_number repo_id st = (Raise (KeyError repo_id), st))
  ∧ (∀ n, Dict.get repo_id (_next_pull_request_number st) = Some n →
     ∃ st',
       GitHubState.next_pull_request_number repo_id st = (Return n, st')
       ∧ Dict.get repo_id (_next_pull_request_number st') = Some (n + 1)
       ∧ (∀ k, k ≠ repo_id →
               Dict.get k (_next_pull_request_number st')
               = Dict.get k (_next_pull_request_number st))
       ∧ Dict.keys (_next_pull_request_number st')
         = Dict.keys (_next_pull_request_number st)
       ∧ repositories st' = repositories st
       ∧ pull_requests st' = pull_requests st
       ∧ _next_id st' = _next_id st).
Proof.
  split.
  - intros E. by rewrite next_pull_request_number_eq, E.
  - intros n E. eexists. split; [by rewrite next_pull_request_number_eq, E|].
    simpl. split; [apply DictFacts.get_set_eq|].
    split; [by intros k Hk; apply DictFacts.get_set_ne|].
    split; [apply DictFacts.keys_set_present; eauto|done].
Qed.

Lemma next_pull_request_number_spec_witness :
  GitHubState.next_pull_request_number "77" GitHubState.init
    = (Raise (KeyError "77"), GitHubState.init)
  ∧ ∃ st', GitHubState.next_pull_request_number "1000" GitHubState.init
             = (Return 500, st')
           ∧ Dict.get "1000" (_next_pull_request_number st') = Some 501.
Proof.
  split.
  - apply (proj1 (next_pull_request_number_spec "77" GitHubState.init)).
    reflexivity.
  - destruct (proj2 (next_pull_request_number_spec "1000" GitHubState.init)
                500 eq_refl) as (st' & Hrun & Hget & _).
    exists st'. split; [exact Hrun|exact Hget].
Defined.

(** C10. [createPullRequest] with an [ownerId] that is no repository of the
    store raises, with no pull request inserted and no number counter
    touched, but with the identifier counter already advanced by one: the
    store after the failed call is not the store before it. *)
Theorem createPullRequest_unknown_owner
    (input : CreatePullRequestInput.t) (st : GitHubState) :
  Dict.get (CreatePullRequestInput.ownerId input) (repositories st) = None →
  ∃ st',
    Root.createPullRequest input st
      = (Raise (KeyError (CreatePullRequestInput.ownerId input)), st')
    ∧ pull_requests st' = pull_requests st
    ∧ _next_pull_request_number st' = _next_pull_request_number st
    ∧ repositories st' = repositories st
    ∧ _next_id st' = _next_id st + 1
    ∧ st' ≠ st.
Proof.
  intros E. eexists. split; [by rewrite createPullRequest_eq; simpl; rewrite E|].
  simpl. do 4 (split; [done|]).
  intros H. apply (f_equal _next_id) in H. simpl in H. lia.
Qed.

Lemma createPullRequest_unknown_owner_witness :
  Dict.get "77" (repositories GitHubState.init) = None
  ∧ ∃ st', Root.createPullRequest sample_orphan GitHubState.init
             = (Raise (KeyError "77"), st')
           ∧ pull_requests st' = []
           ∧ _next_id st' = 5001.
Proof.
  split; [reflexivity|].
  destruct (createPullRequest_unknown_owner sample_orphan GitHubState.init eq_refl)
    as (st' & Hrun & Hprs & _ & _ & Hid & _).
  exists st'. split; [exact Hrun|]. split; [exact Hprs|exact Hid].
Defined.

(** * Further properties of the fake endpoint *)

Lemma dict_elem_get {V} (d : dict V) k v :
  NoDup (Dict.keys d) → (k, v) ∈ d → Dict.get k d = Some v.
Proof.
  unfold Dict.keys. induction d as [|[k' v'] d IH]; simpl.
  - intros _ H. by apply elem_of_nil in H.
  - intros [Hnotin Hnd]%NoDup_cons [[= -> ->]|Hin]%elem_of_cons.
    + by rewrite decide_True.
    + rewrite decide_False; [auto|].
      intros ->. apply Hnotin. by apply (DictFacts.elem_keys d k v).
Qed.

Lemma updated_idempotent input pr : updated input (updated input pr) = updated input pr.
Proof.
  destruct pr, input as [b t bo c key]. unfold updated. simpl.
  by destruct t, b, bo.
Qed.

Lemma updated_merge i1 i2 pr :
  updated i2 (updated i1 pr) = updated (merge_inputs i1 i2) pr.
Proof.
  destruct pr, i1 as [b1 t1 bo1 c1 k1], i2 as [b2 t2 bo2 c2 k2].
  unfold updated, merge_inputs. simpl.
  by destruct t1, b1, bo1, t2, b2, bo2.
Qed.

(** X1. [updatePullRequest] for an identifier that is no pull request of
    the store raises the [KeyError] of the failed lookup, naming the
    identifier, and leaves the whole store as it was. *)
Theorem updatePullRequest_unknown_id
    (input : UpdatePullRequestInput.t) (st : GitHubState) :
  Dict.get (UpdatePullRequestInput.pullRequestId input) (pull_requests st) = None →
  Root.updatePullRequest input st
  = (Raise (KeyError (UpdatePullRequestInput.pullRequestId input)), st).
Proof. intros E. by rewrite updatePullRequest_eq; simpl; rewrite E. Qed.

Lemma updatePullRequest_unknown_id_witness :
  Root.updatePullRequest sample_update GitHubState.init
  = (Raise (KeyError "5000"), GitHubState.init).
Proof.
  apply (updatePullRequest_unknown_id sample_update GitHubState.init).
  reflexivity.
Defined.

(** X2. [updatePullRequest] is idempotent: the same input a second time
    gives the same outcome (payload or exception) and leaves the store the
    first call left. *)
Theorem updatePullRequest_idempotent
    (input : UpdatePullRequestInput.t) (st : GitHubState) :
  Root.updatePullRequest input (Root.updatePullRequest input st).2
  = Root.updatePullRequest input st.
Proof.
  rewrite (updatePullRequest_eq input st). simpl.
  destruct (Dict.get _ (pull_requests st)) as [pr|] eqn:E; simpl.
  - rewrite updatePullRequest_eq. simpl.
    by rewrite DictFacts.get_set_eq, updated_idempotent, DictFacts.set_set.
  - rewrite updatePullRequest_eq. simpl. by rewrite E.
Qed.

(** X3. Two updates of the same pull request compose field by field: the
    second call returns, and the store ends up as, what one call with the
    merged input gives, where the merged input takes each of [title],
    [baseRefName], [body] from the second input if it gives a value there
    and from the first otherwise. *)
Theorem updatePullRequest_compose
    (i1 i2 : UpdatePullRequestInput.t) (st : GitHubState) :
  UpdatePullRequestInput.pullRequestId i1 = UpdatePullRequestInput.pullRequestId i2 →
  Root.updatePullRequest i2 (Root.updatePullRequest i1 st).2
  = Root.updatePullRequest (merge_inputs i1 i2) st.
Proof.
  intros Hkey. rewrite (updatePullRequest_eq i1 st), (updatePullRequest_eq (merge_inputs i1 i2) st).
  simpl. rewrite Hkey.
  destruct (Dict.get _ (pull_requests st)) as [pr|] eqn:E; simpl.
  - rewrite updatePullRequest_eq. simpl.
    by rewrite DictFacts.get_set_eq, updated_merge, DictFacts.set_set.
  - rewrite updatePullRequest_eq. simpl. by rewrite E.
Qed.

Lemma updatePullRequest_compose_witness :
  Root.updatePullRequest
    (UpdatePullRequestInput.mk (Value "dev") Null Absent Absent "5000")
    (Root.updatePullRequest sample_update store1).2
  = Root.updatePullRequest
      (UpdatePullRequestInput.mk (Value "dev") (Value "T2") Null Absent "5000")
      store1.
Proof.
  exact (updatePullRequest_compose sample_update
           (UpdatePullRequestInput.mk (Value "dev") Null Absent Absent "5000")
           store1 eq_refl).
Defined.

(** X4. A call that raises has inserted no pull request, changed no pull
    request, no repository and no number counter.  Every raising call but
    [createPullRequest] leaves the store exactly as it was; a raising
    [createPullRequest] has moved the identifier counter by one and done
    nothing else. *)
Theorem raising_call_effect (op : Op) (st : GitHubState) (e : Exception) :
  (exec op st).1 = Raise e →
  repositories (exec op st).2 = repositories st
  ∧ pull_requests (exec op st).2 = pull_requests st
  ∧ _next_pull_request_number (exec op st).2 = _next_pull_request_number st
  ∧ ((∀ input, op ≠ Op_createPullRequest input) → (exec op st).2 = st)
  ∧ (∀ input, op = Op_createPullRequest input →
              (exec op st).2 = GitHubState.set__next_id (_next_id st + 1) st).
Proof.
  destruct op as [owner name|id|self number|self|self|input|input]; unfold exec.
  1-5: intros _; rewrite fmap_read_state; split_and!; try done.
  - unfold fmap, M_fmap. rewrite updatePullRequest_eq. simpl.
    destruct (Dict.get _ (pull_requests st)) as [pr|] eqn:E; simpl; [done|].
    intros _. split_and!; done.
  - unfold fmap, M_fmap. rewrite createPullRequest_eq. simpl.
    destruct (Dict.get _ (repositories st)) as [repo|] eqn:Er;
      [destruct (Dict.get _ (_next_pull_request_number st)) as [n|] eqn:En|];
      simpl; [done|..]; intros _; split_and!; try done; by intros H; destruct (H input).
Qed.

Lemma raising_call_effect_witness :
  (exec (Op_createPullRequest sample_orphan) store1).2
  = GitHubState.set__next_id 5002 store1
  ∧ (exec (Op_node "9999") store1).2 = store1.
Proof.
  split.
  - exact (proj2 (proj2 (proj2 (proj2
             (raising_call_effect (Op_createPullRequest sample_orphan) store1
                (KeyError "77") eq_refl)))) sample_orphan eq_refl).
  - apply (proj1 (proj2 (proj2 (proj2
             (raising_call_effect (Op_node "9999") store1
                (RuntimeError "unknown id 9999") eq_refl))))).
    discriminate.
Defined.

(** X5. Along any run from a well-formed store nothing is ever deleted or
    reordered: the repositories stay exactly as they were, and the keys of
    the pull-request map are the old keys, in their old order, followed by
    the identifiers of the pull requests the run created, in creation
    order. *)
Theorem run_never_deletes (ops : list Op) (st : GitHubState) :
  store_wf st →
  repositories (run ops st).2 = repositories st
  ∧ Dict.keys (pull_requests (run ops st).2)
    = Dict.keys (pull_requests st)
      ++ (PullRequest_id <$> created_pull_requests (run ops st).1).
Proof.
  intros Hwf. split; [apply run_repositories|by apply run_pull_request_keys].
Qed.

Lemma run_never_deletes_witness :
  Dict.keys (pull_requests
               (run [Op_updatePullRequest sample_update;
                     Op_createPullRequest sample_create] store1).2)
  = ["5000"; "5001"].
Proof.
  exact (proj2 (run_never_deletes
                  [Op_updatePullRequest sample_update;
                   Op_createPullRequest sample_create] store1
                  (createPullRequest_wf sample_create _ init_wf))).
Defined.

Lemma same_identity_refl p : same_identity p p.
Proof. by repeat split. Qed.

Lemma same_identity_trans p1 p2 p3 :
  same_identity p1 p2 → same_identity p2 p3 → same_identity p1 p3.
Proof.
  intros (?&?&?&?&?) (?&?&?&?&?). repeat split; congruence.
Qed.

Lemma exec_same_identity op st k p :
  store_wf st → Dict.get k (pull_requests st) = Some p →
  ∃ p', Dict.get k (pull_requests (exec op st).2) = Some p' ∧ same_identity p p'.
Proof.
  intros Hwf Hk.
  destruct (exec_cases op st) as [[_ [->|[(input & pr & E & ->)| ->]]]|H].
  - exists p. split; [done|apply same_identity_refl].
  - simpl. destruct (decide (UpdatePullRequestInput.pullRequestId input = k))
      as [Heq|Hne].
    + rewrite Heq in *. rewrite DictFacts.get_set_eq.
      rewrite Hk in E. injection E as <-.
      exists (updated input p). split; [done|]. by repeat split.
    + rewrite DictFacts.get_set_ne by done.
      exists p. split; [done|apply same_identity_refl].
  - exists p. split; [done|apply same_identity_refl].
  - destruct H as (input & repo & n & _ & _ & _ & ->). simpl.
    rewrite DictFacts.get_set_ne.
    + exists p. split; [done|apply same_identity_refl].
    + intros Heq. destruct (next_id_fresh st Hwf) as [_ Hfresh].
      rewrite Heq, Hk in Hfresh. done.
Qed.

(** X6. A pull request keeps its identity for good: whatever calls follow,
    from a well-formed store, the store still holds a pull request under the
    same key, with the same [id], [number], [url], [headRefName] and owning
    repository.  Only [title], [baseRefName] and [body] can ever differ. *)
Theorem pull_request_identity_is_stable
    (ops : list Op) (st : GitHubState) (k : GraphQLId) (p : PullRequest) :
  store_wf st →
  Dict.get k (pull_requests st) = Some p →
  ∃ p', Dict.get k (pull_requests (run ops st).2) = Some p'
        ∧ same_identity p p'.
Proof.
  revert st p. induction ops as [|op ops IH]; intros st p Hwf Hk.
  - exists p. split; [done|apply same_identity_refl].
  - rewrite run_cons. cbn [fst snd].
    destruct (exec_same_identity op st k p Hwf Hk) as (p1 & Hk1 & Hs1).
    destruct (IH (exec op st).2 p1 (exec_wf op st Hwf) Hk1) as (p2 & Hk2 & Hs2).
    exists p2. split; [done|]. by apply (same_identity_trans p p1 p2).
Qed.

Lemma pull_request_identity_is_stable_witness :
  ∃ p', Dict.get "5000"
          (pull_requests
             (run [Op_updatePullRequest sample_update;
                   Op_createPullRequest sample_create] store1).2) = Some p'
        ∧ same_identity pr5000 p'.
Proof.
  apply (pull_request_identity_is_stable
           [Op_updatePullRequest sample_update; Op_createPullRequest sample_create]
           store1 "5000" pr5000).
  - exact (createPullRequest_wf sample_create _ init_wf).
  - reflexivity.
Defined.

(** X7. Well-formedness is an invariant of the store: the seeded store is
    well-formed, and every run of resolver calls, returning or raising,
    takes a well-formed store to a well-formed store.  So every entity stays
    under its own identifier, the two maps never share a key, no reference
    dangles and the identifier counter stays ahead of every identifier in
    use. *)
Theorem well_formed_invariant :
  store_wf GitHubState.init
  ∧ ∀ ops st, store_wf st → store_wf (run ops st).2.
Proof. split; [apply init_wf|]. intros ops st. apply run_wf. Qed.

Lemma well_formed_invariant_witness :
  store_wf (run [Op_createPullRequest sample_create;
                 Op_createPullRequest sample_orphan] GitHubState.init).2.
Proof.
  exact (proj2 well_formed_invariant
           [Op_createPullRequest sample_create; Op_createPullRequest sample_orphan]
           GitHubState.init (proj1 well_formed_invariant)).
Defined.

(** ** Numbering *)

Lemma exec_numbers op st :
  store_wf st → numbers_below st → numbers_unique st →
  numbers_below (exec op st).2 ∧ numbers_unique (exec op st).2.
Proof.
  intros Hwf Hb Hu.
  destruct (exec_cases op st) as [[_ [->|[(input & pr & E & ->)| ->]]]|H];
    try done.
  - (* an update keeps repository and number of the entry it rewrites *)
    pose proof (DictFacts.get_Some_elem _ _ _ E) as Hin.
    assert (Horigin : ∀ k p,
              (k, p) ∈ Dict.set (UpdatePullRequestInput.pullRequestId input)
                         (updated input pr) (pull_requests st) →
              ∃ p0, (k, p0) ∈ pull_requests st
                    ∧ PullRequest__repository p0 = PullRequest__repository p
                    ∧ PullRequest_number p0 = PullRequest_number p).
    { intros k p [Hp|[-> ->]]%DictFacts.elem_set; [by exists p|by exists pr]. }
    split.
    + intros k p (p0 & Hp0 & Hr & Hn)%Horigin. simpl.
      rewrite <- Hr, <- Hn. by apply (Hb k).
    + intros k1 p1 k2 p2 (q1 & Hq1 & Hr1 & Hn1)%Horigin
                          (q2 & Hq2 & Hr2 & Hn2)%Horigin Hr Hn.
      apply (Hu k1 q1 k2 q2); congruence.
  - (* a creation takes the counter's value and moves the counter past it *)
    destruct H as (input & repo & n & Er & En & _ & ->). simpl.
    set (owner := CreatePullRequestInput.ownerId input) in *.
    set (new := created input (str (_next_id st)) repo n).
    assert (Hold : ∀ k p, (k, p) ∈ pull_requests st →
                          PullRequest__repository p = owner →
                          PullRequest_number p < n).
    { intros k p Hp Hr. destruct (Hb k p Hp) as (m & Hm & Hlt).
      rewrite Hr, En in Hm. by injection Hm as <-. }
    split.
    + intros k p [Hp|[-> ->]]%DictFacts.elem_set; cbn [_next_pull_request_number].
      * destruct (decide (PullRequest__repository p = owner)) as [Hr|Hr].
        -- exists (n + 1). rewrite Hr, DictFacts.get_set_eq.
           split; [done|]. pose proof (Hold k p Hp Hr). lia.
        -- rewrite DictFacts.get_set_ne by done. by apply (Hb k).
      * exists (n + 1). change (PullRequest__repository new) with owner.
        rewrite DictFacts.get_set_eq.
        split; [done|]. change (PullRequest_number new) with n. lia.
    + intros k1 p1 k2 p2 [H1|[-> ->]]%DictFacts.elem_set
                          [H2|[-> ->]]%DictFacts.elem_set Hr Hn.
      * by apply (Hu k1 p1 k2 p2).
      * simpl in Hr, Hn. pose proof (Hold k1 p1 H1 Hr). lia.
      * simpl in Hr, Hn. pose proof (Hold k2 p2 H2 (eq_sym Hr)). lia.
      * done.
Qed.

Lemma reachable_numbers st : reachable st → numbers_below st ∧ numbers_unique st.
Proof.
  intros [ops <-].
  enough (store_wf (run ops GitHubState.init).2
          ∧ numbers_below (run ops GitHubState.init).2
          ∧ numbers_unique (run ops GitHubState.init).2) by tauto.
  apply (run_invariant (λ st, store_wf st ∧ numbers_below st ∧ numbers_unique st)).
  - intros op st (Hwf & Hb & Hu). split; [by apply exec_wf|by apply exec_numbers].
  - split; [apply init_wf|]. split.
    + intros k p H. by apply elem_of_nil in H.
    + intros k1 p1 k2 p2 H. by apply elem_of_nil in H.
Qed.

(** X8. In every reachable store a number identifies a pull request within
    its repository: two entries of the pull-request map with the same owning
    repository and the same number are one entry, and every pull request's
    number is below its repository's counter, so the number handed out next
    is taken by none. *)
Theorem numbers_identify_pull_requests (st : GitHubState) :
  reachable st →
  (∀ k1 p1 k2 p2,
     (k1, p1) ∈ pull_requests st → (k2, p2) ∈ pull_requests st →
     PullRequest__repository p1 = PullRequest__repository p2 →
     PullRequest_number p1 = PullRequest_number p2 →
     k1 = k2 ∧ p1 = p2)
  ∧ (∀ k p, (k, p) ∈ pull_requests st →
       ∃ n, Dict.get (PullRequest__repository p) (_next_pull_request_number st)
            = Some n
            ∧ PullRequest_number p < n).
Proof.
  intros Hreach. destruct (reachable_numbers st Hreach) as [Hb Hu].
  pose proof (reachable_wf st Hreach) as Hwf.
  split; [|exact Hb].
  intros k1 p1 k2 p2 H1 H2 Hr Hn.
  assert (k1 = k2) as -> by by apply (Hu k1 p1 k2 p2).
  split; [done|].
  pose proof (dict_elem_get _ _ _ (wf_pull_requests_nodup _ Hwf) H1) as E1.
  pose proof (dict_elem_get _ _ _ (wf_pull_requests_nodup _ Hwf) H2) as E2.
  congruence.
Qed.

Lemma numbers_identify_pull_requests_witness :
  ∃ n, Dict.get "1000" (_next_pull_request_number store1) = Some n ∧ 500 < n.
Proof.
  apply (proj2 (numbers_identify_pull_requests store1
                  (ex_intro _ [Op_createPullRequest sample_create] eq_refl))
           "5000" pr5000).
  apply list_elem_of_here.
Defined.

(** X9. Creation and lookup round trip.  In every reachable store a
    [createPullRequest] for the seeded repository returns a pull request
    that the store then gives back under each of its handles:
    [node(id)] returns it, the seeded repository's [pullRequest(number)]
    returns it, and its own [repository()] is the seeded repository. *)
Theorem create_then_lookup
    (st : GitHubState) (input : CreatePullRequestInput.t) :
  reachable st →
  CreatePullRequestInput.ownerId input = "1000" →
  ∃ payload st',
    Root.createPullRequest input st = (Return payload, st')
    ∧ Root.node (PullRequest_id (CreatePullRequestPayload.pullRequest payload)) st'
      = Return (NodePullRequest (CreatePullRequestPayload.pullRequest payload))
    ∧ Repository.pullRequest pytorch
        (PullRequest_number (CreatePullRequestPayload.pullRequest payload)) st'
      = Return (CreatePullRequestPayload.pullRequest payload)
    ∧ PullRequest.repository (CreatePullRequestPayload.pullRequest payload) st'
      = Return pytorch.
Proof.
  intros Hreach Howner.
  pose proof (reachable_wf st Hreach) as Hwf.
  destruct (reachable_seed st Hreach) as [Hrepos [n Hn]].
  destruct (reachable_numbers st Hreach) as [Hb _].
  destruct (next_id_fresh st Hwf) as [Hfr Hfp].
  pose proof (createPullRequest_wf input st Hwf) as Hwf'.
  assert (Hseed : Dict.get "1000" (repositories st) = Some pytorch)
    by by rewrite Hrepos.
  rewrite createPullRequest_eq in Hwf' |- *. simpl in Hwf' |- *.
  rewrite Howner, Hseed, Hn in Hwf' |- *. simpl in Hwf'.
  do 2 eexists. split; [reflexivity|]. simpl.
  set (new := created input (str (_next_id st)) pytorch n) in *.
  split_and!.
  - unfold Root.node, Dict.contains, Dict.getitem. simpl.
    by rewrite Hfr, DictFacts.get_set_eq.
  - unfold Repository.pullRequest.
    rewrite pullRequest_loop_wf.
    2:{ intros pr Hpr. apply owns_wf; [done| |done].
        unfold live. simpl. by rewrite Hrepos. }
    simpl. rewrite DictFacts.set_fresh by done. rewrite values_app.
    rewrite list_find_app_r.
    + simpl. rewrite decide_True; [done|]. by rewrite Howner.
    + apply list_find_None, Forall_forall.
      intros pr [k Hk]%DictFacts.values_elem [Hr Hnum].
      destruct (Hb k pr Hk) as (m & Hm & Hlt).
      simpl in Hr. rewrite Hr, Hn in Hm. injection Hm as <-. simpl in Hnum. lia.
  - unfold PullRequest.repository, Dict.getitem. simpl. by rewrite Howner, Hrepos.
Qed.

Lemma create_then_lookup_witness :
  ∃ payload st',
    Root.createPullRequest sample_create store1 = (Return payload, st')
    ∧ Root.node (PullRequest_id (CreatePullRequestPayload.pullRequest payload)) st'
      = Return (NodePullRequest (CreatePullRequestPayload.pullRequest payload))
    ∧ Repository.pullRequest pytorch
        (PullRequest_number (CreatePullRequestPayload.pullRequest payload)) st'
      = Return (CreatePullRequestPayload.pullRequest payload)
    ∧ PullRequest.repository (CreatePullRequestPayload.pullRequest payload) st'
      = Return pytorch.
Proof.
  apply (create_then_lookup store1 sample_create).
  - exists [Op_createPullRequest sample_create]. reflexivity.
  - reflexivity.
Defined.

(** ** Lookups by name and back references *)




(** X11. After a successful [updatePullRequest] on a well-formed store,
    [node] on the pull request's identifier returns the entity of the
    payload: the update is what later reads see. *)
Theorem update_then_node
    (input : UpdatePullRequestInput.t) (st st' : GitHubState)
    (payload : UpdatePullRequestPayload.t) :
  store_wf st →
  Root.updatePullRequest input st = (Return payload, st') →
  Root.node (UpdatePullRequestInput.pullRequestId input) st'
  = Return (NodePullRequest (UpdatePullRequestPayload.pullRequest payload)).
Proof.
  intros Hwf. rewrite updatePullRequest_eq. simpl.
  destruct (Dict.get _ (pull_requests st)) as [pr|] eqn:E; [|done].
  intros [= <- <-]. simpl.
  assert (Hnot : Dict.get (UpdatePullRequestInput.pullRequestId input)
                   (repositories st) = None).
  { apply DictFacts.get_None_keys. intros Hin.
    apply (wf_disjoint _ Hwf _ Hin).
    eapply DictFacts.elem_keys, DictFacts.get_Some_elem, E. }
  unfold Root.node, Dict.contains, Dict.getitem. simpl.
  by rewrite Hnot, DictFacts.get_set_eq.
Qed.

Lemma update_then_node_witness :
  ∃ payload st',
    Root.updatePullRequest sample_update store1 = (Return payload, st')
    ∧ Root.node "5000" st'
      = Return (NodePullRequest (UpdatePullRequestPayload.pullRequest payload))
    ∧ PullRequest_title (UpdatePullRequestPayload.pullRequest payload) = "T2".
Proof.
  do 2 eexists. split; [reflexivity|]. split; [|reflexivity].
  apply (update_then_node sample_update store1).
  - exact (createPullRequest_wf sample_create _ init_wf).
  - reflexivity.
Defined.

(** X12. Every pull request a repository's resolvers hand out points back
    to that repository, in any store: for each pull request in the list
    [pullRequests] returns, and for the one [pullRequest(number)] returns,
    [repository()] returns the receiver; and the latter carries the number
    asked for. *)
Theorem pull_requests_point_back (self : Repository) (st : GitHubState) :
  (∀ l pr, Repository.pullRequests self st = Return l → pr ∈ l →
           PullRequest.repository pr st = Return self)
  ∧ (∀ number pr, Repository.pullRequest self number st = Return pr →
                  PullRequest.repository pr st = Return self
                  ∧ PullRequest_number pr = number).
Proof.
  split.
  - intros l pr Hl Hin.
    rewrite (filter_raising_Return _
               (λ pr, Dict.get (PullRequest__repository pr) (repositories st)
                      = Some self) _ _ (λ x b _, owns_Return self st x b) Hl) in Hin.
    apply list_elem_of_filter in Hin as [Hget _].
    unfold PullRequest.repository, Dict.getitem. by rewrite Hget.
  - intros number pr (_ & Hget & Hnum)%pullRequest_loop_Return.
    unfold PullRequest.repository, Dict.getitem. by rewrite Hget.
Qed.

Lemma pull_requests_point_back_witness :
  PullRequest.repository pr5000 store1 = Return pytorch
  ∧ PullRequest_number pr5000 = 500.
Proof.
  exact (proj2 (pull_requests_point_back pytorch store1) 500 pr5000 eq_refl).
Defined.

(** X13. In every reachable store [repository(owner, name)] returns the
    seeded repository exactly when [owner/name] is ["pytorch/pytorch"],
    and for every other pair raises a [RuntimeError] whose message is
    ["unknown repository "] followed by [owner/name]. *)
Theorem repository_by_name (owner name : string) (st : GitHubState) :
  reachable st →
  (owner +:+ "/" +:+ name = "pytorch/pytorch" →
   Root.repository owner name st = Return pytorch)
  ∧ (owner +:+ "/" +:+ name ≠ "pytorch/pytorch" →
     Root.repository owner name st
     = Raise (RuntimeError ("unknown repository " +:+ owner +:+ "/" +:+ name))).
Proof.
  intros [Hrepos _]%reachable_seed.
  unfold Root.repository. rewrite Hrepos.
  change (Dict.values [("1000", pytorch)]) with [pytorch].
  cbn [Root.repository_loop]. case_bool_decide as Hname; simpl in Hname.
  - split; [done|]. intros Hne. by destruct Hne.
  - split; [|done]. intros Heq. by destruct Hname.
Qed.

Lemma repository_by_name_witness :
  Root.repository "pytorch" "pytorch" store1 = Return pytorch
  ∧ Root.repository "pytorch" "vision" store1
    = Raise (RuntimeError "unknown repository pytorch/vision").
Proof.
  split.
  - apply (proj1 (repository_by_name "pytorch" "pytorch" store1
                    (ex_intro _ [Op_createPullRequest sample_create] eq_refl))).
    reflexivity.
  - apply (proj2 (repository_by_name "pytorch" "vision" store1
                    (ex_intro _ [Op_createPullRequest sample_create] eq_refl))).
    discriminate.
Defined.

Lemma filter_raising_Raise {A} (p : A → Result bool) (l : list A) x e :
  x ∈ l → p x = Raise e → ∃ e', filter_raising p l = Raise e'.
Proof.
  induction l as [|y l IH]; [by intros H%elem_of_nil|].
  intros [->|Hin]%elem_of_cons Hx; simpl.
  - rewrite Hx. eauto.
  - destruct (p y) as [b|e0]; [|eauto].
    destruct (IH Hin Hx) as [e' ->]. eauto.
Qed.

(** X14. One dangling reference breaks the listing for every repository:
    if some pull request of the store refers to a repository that is not
    there, [pullRequests] raises for any receiver, related to that pull
    request or not, instead of returning the receiver's pull requests. *)
Theorem dangling_reference_breaks_pullRequests
    (self : Repository) (st : GitHubState) (pr : PullRequest) :
  pr ∈ Dict.values (pull_requests st) →
  Dict.get (PullRequest__repository pr) (repositories st) = None →
  ∃ e, Repository.pullRequests self st = Raise e.
Proof.
  intros Hin Hget. unfold Repository.pullRequests.
  apply (filter_raising_Raise _ _ pr (KeyError (PullRequest__repository pr)));
    [done|].
  unfold Repository.owns, PullRequest.repository, Dict.getitem. by rewrite Hget.
Qed.

Lemma dangling_reference_breaks_pullRequests_witness :
  ∃ e, Repository.pullRequests pytorch store_dangling = Raise e.
Proof.
  apply (dangling_reference_breaks_pullRequests pytorch store_dangling
           (mkPullRequest "5001" "main" "B" "feature" 7 "2000" "T" "u")).
  - apply list_elem_of_further, list_elem_of_here.
  - reflexivity.
Defined.

(** X19. What a successful [createPullRequest] does to a well-formed store,
    and nothing more: the new pull request goes to the end of the
    pull-request map under the identifier [str(_next_id)], every earlier
    entry untouched; the identifier counter and the owner's number counter
    each move by one, the other counters and the repositories stay; and the
    pull request carries the input's branch names, title and body, the
    owner as its repository and the counter's old value as its number. *)
Theorem createPullRequest_frame
    (input : CreatePullRequestInput.t) (st st' : GitHubState)
    (payload : CreatePullRequestPayload.t) :
  store_wf st →
  Root.createPullRequest input st = (Return payload, st') →
  let pr := CreatePullRequestPayload.pullRequest payload in
  pull_requests st' = pull_requests st ++ [(PullRequest_id pr, pr)]
  ∧ PullRequest_id pr = str (_next_id st)
  ∧ _next_id st' = _next_id st + 1
  ∧ repositories st' = repositories st
  ∧ Dict.get (CreatePullRequestInput.ownerId input) (_next_pull_request_number st)
    = Some (PullRequest_number pr)
  ∧ Dict.get (CreatePullRequestInput.ownerId input) (_next_pull_request_number st')
    = Some (PullRequest_number pr + 1)
  ∧ (∀ k, k ≠ CreatePullRequestInput.ownerId input →
          Dict.get k (_next_pull_request_number st')
          = Dict.get k (_next_pull_request_number st))
  ∧ PullRequest__repository pr = CreatePullRequestInput.ownerId input
  ∧ PullRequest_title pr = CreatePullRequestInput.title input
  ∧ PullRequest_body pr = CreatePullRequestInput.body input
  ∧ PullRequest_baseRefName pr = CreatePullRequestInput.baseRefName input
  ∧ PullRequest_headRefName pr = CreatePullRequestInput.headRefName input.
Proof.
  intros Hwf. rewrite createPullRequest_eq. simpl.
  destruct (Dict.get _ (repositories st)) as [repo|] eqn:Er; [|done].
  destruct (Dict.get _ (_next_pull_request_number st)) as [n|] eqn:En; [|done].
  intros [= <- <-]. simpl.
  split; [apply DictFacts.set_fresh; by apply next_id_fresh|].
  do 4 (split; [done|]).
  split; [apply DictFacts.get_set_eq|].
  split; [by intros k Hk; apply DictFacts.get_set_ne|done].
Qed.

Lemma createPullRequest_frame_witness :
  pull_requests store1 = [("5000", pr5000)]
  ∧ _next_id store1 = 5001
  ∧ Dict.get "1000" (_next_pull_request_number store1) = Some 501.
Proof.
  destruct (createPullRequest_frame sample_create GitHubState.init store1
              (CreatePullRequestPayload.mk None pr5000) init_wf eq_refl)
    as (Hprs & _ & Hid & _ & _ & Hcnt & _).
  split; [exact Hprs|]. split; [exact Hid|exact Hcnt].
Defined.

(** * Properties of the log forensics *)

Section rfind_facts.
Context {A : Type} `{EqDecision A}.
Implicit Types (s sub : list A) (i j lo n : nat).

Lemma rfind_down_Some s sub lo n i :
  rfind_down s sub lo n = Some i →
  (lo ≤ i < lo + n)%nat ∧ occurs_at sub s i
  ∧ ∀ j, (i < j < lo + n)%nat → ¬ occurs_at sub s j.
Proof.
  induction n as [|n IH]; simpl; [done|].
  destruct (decide (take (length sub) (drop (lo + n) s) = sub)) as [Hm|Hm].
  - intros [= <-]. split; [lia|]. split; [done|]. intros j Hj. lia.
  - intros (Hr & Ho & Hlast)%IH. split; [lia|]. split; [done|].
    intros j Hj. destruct (decide (j = lo + n)%nat) as [->|Hne]; [done|].
    apply Hlast. lia.
Qed.

Lemma rfind_down_found s sub lo n i :
  (lo ≤ i < lo + n)%nat → occurs_at sub s i →
  (∀ j, (i < j < lo + n)%nat → ¬ occurs_at sub s j) →
  rfind_down s sub lo n = Some i.
Proof.
  induction n as [|n IH]; intros Hr Ho Hlast; [lia|]. simpl.
  destruct (decide (take (length sub) (drop (lo + n) s) = sub)) as [Hm|Hm].
  - destruct (decide (i = lo + n)%nat) as [->|Hne]; [done|].
    destruct (Hlast (lo + n)%nat); [lia|done].
  - destruct (decide (i = lo + n)%nat) as [->|Hne]; [done|].
    apply IH; [lia|done|]. intros j Hj. apply Hlast. lia.
Qed.

Lemma rfind_down_not_found s sub lo n :
  (∀ j, (lo ≤ j < lo + n)%nat → ¬ occurs_at sub s j) →
  rfind_down s sub lo n = None.
Proof.
  induction n as [|n IH]; intros Hno; [done|]. simpl.
  rewrite decide_False by (apply Hno; lia).
  apply IH. intros j Hj. apply Hno. lia.
Qed.

(** What [rfind] returns is [-1] or an index in the adjusted range. *)
Lemma rfind_range s sub start e :
  rfind s sub start e = -1
  ∨ (adjust_start (py_len s) start ≤ rfind s sub start e
     ∧ rfind s sub start e + py_len sub ≤ adjust_end (py_len s) e
     ∧ 0 ≤ rfind s sub start e).
Proof.
  unfold rfind.
  destruct (Z.ltb_spec (adjust_end (py_len s) e - adjust_start (py_len s) start)
              (py_len sub)) as [Hlt|Hge]; [by left|].
  destruct (rfind_down _ _ _ _) as [i|] eqn:E; [|by left].
  right. apply rfind_down_Some in E as (Hr & _ & _).
  assert (0 ≤ adjust_start (py_len s) start).
  { unfold adjust_start. destruct (Z.ltb_spec start 0); lia. }
  lia.
Qed.

(** The highest occurrence in range is what [rfind] returns. *)
Lemma rfind_found s sub start e i :
  0 ≤ adjust_start (py_len s) start ≤ Z.of_nat i →
  Z.of_nat i + py_len sub ≤ adjust_end (py_len s) e →
  occurs_at sub s i →
  (∀ j, (i < j)%nat → Z.of_nat j + py_len sub ≤ adjust_end (py_len s) e →
        ¬ occurs_at sub s j) →
  rfind s sub start e = Z.of_nat i.
Proof.
  intros Ha Hb Ho Hlast. unfold rfind.
  destruct (Z.ltb_spec (adjust_end (py_len s) e - adjust_start (py_len s) start)
              (py_len sub)) as [Hlt|Hge]; [lia|].
  rewrite (rfind_down_found s sub _ _ i); [done|lia|done|].
  intros j Hj. apply Hlast; lia.
Qed.

(** No occurrence in range: [-1]. *)
Lemma rfind_not_found s sub start e :
  0 ≤ adjust_start (py_len s) start →
  (∀ j, adjust_start (py_len s) start ≤ Z.of_nat j →
        Z.of_nat j + py_len sub ≤ adjust_end (py_len s) e →
        ¬ occurs_at sub s j) →
  rfind s sub start e = -1.
Proof.
  intros Ha Hno. unfold rfind.
  destruct (Z.ltb_spec (adjust_end (py_len s) e - adjust_start (py_len s) start)
              (py_len sub)) as [Hlt|Hge]; [done|].
  rewrite rfind_down_not_found; [done|].
  intros j Hj. apply Hno; lia.
Qed.

Lemma occurs_at_singleton c s i : occurs_at [c] s i ↔ s !! i = Some c.
Proof.
  unfold occurs_at. simpl.
  assert (s !! i = drop i s !! 0%nat) as ->
    by by rewrite lookup_drop, Nat.add_0_r.
  destruct (drop i s) as [|x l]; simpl; [done|].
  rewrite take_0. naive_solver.
Qed.

(** Searching a one-character [sub] up to [e]: with [c] at the end of [a]
    and none in [b], and [e] just past [b], the answer is the length of
    [a]. *)
Lemma rfind_char_last c (a b rest : list A) e :
  c ∉ b →
  adjust_end (py_len (a ++ c :: b ++ rest)) e
  = Z.of_nat (length a + 1 + length b) →
  rfind (a ++ c :: b ++ rest) [c] 0 e = Z.of_nat (length a).
Proof.
  intros Hb He. apply rfind_found.
  - unfold adjust_start. simpl. lia.
  - rewrite He. unfold py_len. simpl. lia.
  - apply occurs_at_singleton. by rewrite list_lookup_middle.
  - intros j Hj Hje. rewrite He in Hje. unfold py_len in Hje. simpl in Hje.
    rewrite occurs_at_singleton. intros Hl.
    rewrite lookup_app_r in Hl by lia.
    destruct (j - length a)%nat as [|k] eqn:Ek; [lia|]. simpl in Hl.
    rewrite lookup_app_l in Hl by lia.
    apply Hb. by eapply list_elem_of_lookup_2.
Qed.

(** With no [c] in [b] and [e] just past [b], the answer is [-1]. *)
Lemma rfind_char_none c (b rest : list A) e :
  c ∉ b →
  adjust_end (py_len (b ++ rest)) e = Z.of_nat (length b) →
  rfind (b ++ rest) [c] 0 e = -1.
Proof.
  intros Hb He. apply rfind_not_found.
  - unfold adjust_start. simpl. lia.
  - intros j _ Hje. rewrite He in Hje. unfold py_len in Hje. simpl in Hje.
    rewrite occurs_at_singleton. intros Hl.
    rewrite lookup_app_l in Hl by lia.
    apply Hb. by eapply list_elem_of_lookup_2.
Qed.

End rfind_facts.

Lemma adjust_end_bounds len e : 0 ≤ len → 0 ≤ adjust_end len e ≤ len.
Proof.
  intros Hlen. unfold adjust_end.
  destruct (Z.gtb_spec e len); [lia|]. destruct (Z.ltb_spec e 0); lia.
Qed.

Lemma adjust_end_id len e : 0 ≤ e ≤ len → adjust_end len e = e.
Proof.
  intros He. unfold adjust_end.
  destruct (Z.gtb_spec e len); [lia|]. destruct (Z.ltb_spec e 0); lia.
Qed.

Lemma adjust_end_minus_one len : 0 ≤ len → adjust_end len (-1) = Z.max 0 (len - 1).
Proof.
  intros Hlen. unfold adjust_end.
  destruct (Z.gtb_spec (-1) len); [lia|]. destruct (Z.ltb_spec (-1) 0); lia.
Qed.

Lemma py_len_nonneg {A} (s : list A) : 0 ≤ py_len s.
Proof. unfold py_len. lia. Qed.

Lemma slice_to_index {A} (s : list A) (i : nat) :
  (i ≤ length s)%nat → slice_to s (Z.of_nat i) = take i s.
Proof.
  intros Hi. unfold slice_to.
  rewrite adjust_end_id by (unfold py_len; lia). by rewrite Nat2Z.id.
Qed.

Lemma slice_to_minus_one {A} (s : list A) :
  slice_to s (-1) = take (length s - 1) s.
Proof.
  unfold slice_to. rewrite adjust_end_minus_one by apply py_len_nonneg.
  f_equal. unfold py_len. lia.
Qed.

Lemma occurs_at_length {A} (sub s : list A) j :
  occurs_at sub s j → sub ≠ [] → (j + length sub ≤ length s)%nat.
Proof.
  unfold occurs_at. intros Ho Hne.
  apply (f_equal length) in Ho. rewrite length_take, length_drop in Ho.
  assert (length sub ≠ 0%nat) by by destruct sub. lia.
Qed.

Lemma occurs_at_app {A} (pre sub post : list A) :
  occurs_at sub (pre ++ sub ++ post) (length pre).
Proof.
  unfold occurs_at. rewrite drop_app_length. by rewrite take_app_length.
Qed.

(** The marker starts at [i] and nowhere later: [rfind] over the whole
    string finds [i]. *)
Lemma rfind_whole_found {A} `{EqDecision A} (s sub : list A) i :
  sub ≠ [] → occurs_at sub s i →
  (∀ j, (i < j)%nat → ¬ occurs_at sub s j) →
  rfind s sub 0 (py_len s) = Z.of_nat i.
Proof.
  intros Hne Ho Hlast. pose proof (occurs_at_length _ _ _ Ho Hne).
  apply rfind_found; try done.
  - unfold adjust_start. simpl. lia.
  - rewrite adjust_end_id by (pose proof (py_len_nonneg s); lia).
    unfold py_len. lia.
  - intros j Hj _. by apply Hlast.
Qed.

Lemma rfind_whole_absent {A} `{EqDecision A} (s sub : list A) :
  (∀ j, ¬ occurs_at sub s j) → rfind s sub 0 (py_len s) = -1.
Proof.
  intros Hno. apply rfind_not_found; [done|]. intros j _ _. apply Hno.
Qed.

(** Conversely, what [rfind] over the whole string returns is the last
    place the marker starts. *)
Lemma rfind_whole_last {A} `{EqDecision A} (s sub : list A) i :
  sub ≠ [] → rfind s sub 0 (py_len s) = Z.of_nat i →
  ∀ j, (i < j)%nat → ¬ occurs_at sub s j.
Proof.
  intros Hne Hr j Hj Ho. pose proof (occurs_at_length _ _ _ Ho Hne) as Hlen.
  unfold rfind in Hr. rewrite adjust_end_id in Hr
    by (pose proof (py_len_nonneg s); lia).
  change (adjust_start (py_len s) 0) with 0 in Hr.
  destruct (Z.ltb_spec (py_len s - 0) (py_len sub)) as [Hlt|Hge]; [lia|].
  destruct (rfind_down _ _ _ _) as [i'|] eqn:E; [|lia].
  apply Nat2Z.inj in Hr as ->.
  apply rfind_down_Some in E as (_ & _ & Hlast).
  apply (Hlast j); [|done]. unfold py_len in *. lia.
Qed.

Lemma rfind_down_None {A} `{EqDecision A} (s sub : list A) lo n :
  rfind_down s sub lo n = None →
  ∀ j, (lo ≤ j < lo + n)%nat → ¬ occurs_at sub s j.
Proof.
  induction n as [|n IH]; simpl; [intros _ j Hj; lia|].
  destruct (decide (take (length sub) (drop (lo + n) s) = sub)) as [Hm|Hm];
    [done|].
  intros E j Hj. destruct (decide (j = lo + n)%nat) as [->|Hne]; [done|].
  apply (IH E). lia.
Qed.

Lemma rfind_whole_none {A} `{EqDecision A} (s sub : list A) :
  sub ≠ [] → rfind s sub 0 (py_len s) = -1 → ∀ j, ¬ occurs_at sub s j.
Proof.
  intros Hne Hr j Ho. pose proof (occurs_at_length _ _ _ Ho Hne) as Hlen.
  unfold rfind in Hr. rewrite adjust_end_id in Hr
    by (pose proof (py_len_nonneg s); lia).
  change (adjust_start (py_len s) 0) with 0 in Hr.
  destruct (Z.ltb_spec (py_len s - 0) (py_len sub)) as [Hlt|Hge].
  { unfold py_len in Hlt. lia. }
  destruct (rfind_down _ _ _ _) as [i'|] eqn:E; [lia|].
  apply (rfind_down_None _ _ _ _ E j); [|done]. unfold py_len in *. lia.
Qed.

Lemma SCCACHE_MARKER_nonempty : forensics.SCCACHE_MARKER ≠ [].
Proof. done. Qed.

(** X15. [strip_sccache] always cuts: its result is a prefix of the log
    that is at least one character shorter, whatever the log holds, marker
    or not; only the empty log comes back as it is. *)
Theorem strip_sccache_proper_prefix (log_content : list Ascii.ascii) :
  forensics.strip_sccache log_content `prefix_of` log_content
  ∧ (length (forensics.strip_sccache log_content) ≤ length log_content - 1)%nat.
Proof.
  unfold forensics.strip_sccache.
  set (m := rfind log_content forensics.SCCACHE_MARKER 0 (py_len log_content)).
  split; [apply prefix_take|].
  pose proof (py_len_nonneg log_content) as Hlen.
  pose proof (adjust_end_bounds (py_len log_content) m Hlen) as Hm.
  destruct (rfind_range log_content [forensics.newline] 0 m) as [->|(_ & Hr & H0)].
  - rewrite slice_to_minus_one, length_take. lia.
  - unfold slice_to. rewrite length_take.
    rewrite adjust_end_id by (unfold py_len in *; simpl in *; lia).
    unfold py_len in *. simpl in Hr. lia.
Qed.

(** X16. The intended case.  When the last occurrence of the marker sits on
    a line of its own after a line break, [strip_sccache] returns exactly
    the text before that line break: the line break, whatever precedes the
    marker on its line, the marker and everything after it are gone. *)
Theorem strip_sccache_cuts_marker_line (a b c : list Ascii.ascii) :
  forensics.newline ∉ b →
  (∀ j, (length a + 1 + length b < j)%nat →
        ¬ occurs_at forensics.SCCACHE_MARKER
            (a ++ forensics.newline :: b ++ forensics.SCCACHE_MARKER ++ c) j) →
  forensics.strip_sccache
    (a ++ forensics.newline :: b ++ forensics.SCCACHE_MARKER ++ c)
  = a.
Proof.
  intros Hb Hlast. unfold forensics.strip_sccache.
  set (s := a ++ forensics.newline :: b ++ forensics.SCCACHE_MARKER ++ c).
  assert (Hm : rfind s forensics.SCCACHE_MARKER 0 (py_len s)
               = Z.of_nat (length a + 1 + length b)).
  { apply rfind_whole_found; [done| |done].
    replace (length a + 1 + length b)%nat
      with (length (a ++ forensics.newline :: b))
      by (rewrite length_app; simpl; lia).
    replace s with ((a ++ forensics.newline :: b) ++ forensics.SCCACHE_MARKER ++ c)
      by (by rewrite <- app_assoc).
    apply occurs_at_app. }
  rewrite Hm. unfold s.
  rewrite rfind_char_last; [| done |].
  - rewrite slice_to_index by (rewrite length_app; lia).
    by rewrite take_app_length.
  - apply adjust_end_id. unfold py_len.
    rewrite !length_app. simpl. rewrite !length_app. lia.
Qed.

Lemma strip_sccache_cuts_marker_line_witness :
  forensics.strip_sccache log_with_marker = chars "ok".
Proof.
  apply (strip_sccache_cuts_marker_line (chars "ok") (chars "cc ")
           (forensics.newline :: chars "hits 3")).
  - apply (bool_decide_unpack _). vm_compute. exact I.
  - apply (rfind_whole_last log_with_marker forensics.SCCACHE_MARKER 6).
    + discriminate.
    + vm_compute. reflexivity.
Defined.

(** X17. The marker on the first line.  When no line break precedes the
    last occurrence of the marker, nothing of the sccache section is
    stripped: the newline search finds nothing, and the slice up to [-1]
    returns the whole log without its last character. *)
Theorem strip_sccache_marker_on_first_line (b c : list Ascii.ascii) :
  forensics.newline ∉ b →
  (∀ j, (length b < j)%nat →
        ¬ occurs_at forensics.SCCACHE_MARKER
            (b ++ forensics.SCCACHE_MARKER ++ c) j) →
  forensics.strip_sccache (b ++ forensics.SCCACHE_MARKER ++ c)
  = take (length (b ++ forensics.SCCACHE_MARKER ++ c) - 1)
      (b ++ forensics.SCCACHE_MARKER ++ c).
Proof.
  intros Hb Hlast. unfold forensics.strip_sccache.
  rewrite (rfind_whole_found _ _ (length b)); [|done|apply occurs_at_app|done].
  rewrite rfind_char_none; [apply slice_to_minus_one|done|].
  apply adjust_end_id. unfold py_len. rewrite length_app. lia.
Qed.

Lemma strip_sccache_marker_on_first_line_witness :
  forensics.strip_sccache log_marker_first_line
  = chars "cc " ++ forensics.SCCACHE_MARKER ++ forensics.newline :: chars "hits ".
Proof.
  apply (strip_sccache_marker_on_first_line (chars "cc ")
           (forensics.newline :: chars "hits 3")).
  - apply (bool_decide_unpack _). vm_compute. exact I.
  - apply (rfind_whole_last log_marker_first_line forensics.SCCACHE_MARKER 3).
    + discriminate.
    + vm_compute. reflexivity.
Defined.

(** X18. Without any marker the log is cut all the same.  The newline
    search then runs over all but the last character: a log whose last line
    break (before the final character) is followed by [b] and one more
    character is cut back to the text before that line break, and a log
    with no line break there loses its last character only. *)
Theorem strip_sccache_without_marker :
  (∀ a b x,
     forensics.newline ∉ b →
     (∀ j, ¬ occurs_at forensics.SCCACHE_MARKER
               (a ++ forensics.newline :: b ++ [x]) j) →
     forensics.strip_sccache (a ++ forensics.newline :: b ++ [x]) = a)
  ∧ (∀ b x,
       forensics.newline ∉ b →
       (∀ j, ¬ occurs_at forensics.SCCACHE_MARKER (b ++ [x]) j) →
       forensics.strip_sccache (b ++ [x]) = b).
Proof.
  split.
  - intros a b x Hb Hno. unfold forensics.strip_sccache.
    rewrite rfind_whole_absent by done.
    rewrite rfind_char_last; [| done |].
    + rewrite slice_to_index by (rewrite length_app; lia).
      by rewrite take_app_length.
    + rewrite adjust_end_minus_one by apply py_len_nonneg.
      unfold py_len. rewrite !length_app. simpl. rewrite !length_app. simpl. lia.
  - intros b x Hb Hno. unfold forensics.strip_sccache.
    rewrite rfind_whole_absent by done.
    rewrite rfind_char_none; [| done |].
    + rewrite slice_to_minus_one, length_app. simpl.
      replace (length b + 1 - 1)%nat with (length b) by lia.
      by rewrite take_app_length.
    + rewrite adjust_end_minus_one by apply py_len_nonneg.
      unfold py_len. rewrite !length_app. simpl. lia.
Qed.

Lemma strip_sccache_without_marker_witness :
  forensics.strip_sccache log_without_marker = chars "ok"
  ∧ forensics.strip_sccache (chars "done" ++ [forensics.newline]) = chars "done".
Proof.
  split.
  - apply (proj1 strip_sccache_without_marker (chars "ok") (chars "done")
             (Ascii.ascii_of_nat 46)).
    + apply (bool_decide_unpack _). vm_compute. exact I.
    + apply (rfind_whole_none log_without_marker forensics.SCCACHE_MARKER).
      * discriminate.
      * vm_compute. reflexivity.
  - apply (proj2 strip_sccache_without_marker (chars "done") forensics.newline).
    + apply (bool_decide_unpack _). vm_compute. exact I.
    + apply (rfind_whole_none (chars "done" ++ [forensics.newline])
               forensics.SCCACHE_MARKER).
      * discriminate.
      * vm_compute. reflexivity.
Defined.
